(** * binexp_parser: prefix-notation binary-operator AST and its simplifier

    A shallow embedding of [src/binexp_parser.py].  The Python program keeps
    its tree as mutable [BinOpAst] objects that refer to one another, and the
    simplification rules overwrite the attributes of a node in place, so the
    embedding keeps an explicit object store: every [BinOpAst] object lives
    at an address, attributes are read and written one at a time, in the
    order the source reads and writes them, and a failed attribute access is
    the [AttributeError] Python raises.

    Three limits of the interpreter are left out: the bound on the depth of
    recursion, the bound on the number of digits [int] accepts, and text
    outside the first 256 code points. *)

From Stdlib Require Import String Ascii ZArith Lia.
From stdpp Require Import base list strings.

Open Scope string_scope.

(** ** Python builtins used by the program *)

(** Exceptions the program can raise.  The source defines no exception of its
    own; these are the interpreter's. *)
Inductive exn := AttributeError | ValueError | IndexError.

(** Outcome of running a piece of the program: it returns, it raises, or the
    model has no behaviour for it ([Stuck]: the recursion budget of the
    embedding is used up, or an address lies outside the store; neither
    happens in the runs studied below, which is proved where it matters). *)
Inductive outcome (A : Type) :=
| Returned (x : A)
| Raised (e : exn)
| Stuck.
Arguments Returned {A} x.
Arguments Raised {A} e.
Arguments Stuck {A}.

Module Py.

(** Text is modelled with one character per code point below 256.  In that
    range [str.isnumeric] accepts the ten decimal digits and the six
    characters U+00B2, U+00B3, U+00B9 (superscript digits) and U+00BC,
    U+00BD, U+00BE (vulgar fractions). *)
Definition is_decimal_char (c : ascii) : bool :=
  let n := nat_of_ascii c in (48 <=? n)%nat && (n <=? 57)%nat.

Definition is_numeric_char (c : ascii) : bool :=
  let n := nat_of_ascii c in
  is_decimal_char c
  || (n =? 178)%nat || (n =? 179)%nat || (n =? 185)%nat
  || (n =? 188)%nat || (n =? 189)%nat || (n =? 190)%nat.

Fixpoint all_chars (p : ascii -> bool) (s : string) : bool :=
  match s with
  | EmptyString => true
  | String c r => p c && all_chars p r
  end.

(** [s.isnumeric()]: at least one character, all of them numeric. *)
Definition isnumeric (s : string) : bool :=
  match s with
  | EmptyString => false
  | String _ _ => all_chars is_numeric_char s
  end.

Fixpoint decimal_value (acc : Z) (s : string) : Z :=
  match s with
  | EmptyString => acc
  | String c r => decimal_value (10 * acc + (Z.of_nat (nat_of_ascii c) - 48)) r
  end.

(** [int(s)], on the texts the program passes to it: the program only
    calls [int] on a text for which [isnumeric] holds.  On such a text
    [int] returns the decimal value when every character is a decimal
    digit, and raises [ValueError] otherwise (a superscript digit or a
    fraction is numeric but is not a digit of an integer literal).
    Integers are unbounded. *)
Definition int (s : string) : outcome Z :=
  match s with
  | EmptyString => Raised ValueError
  | String _ _ =>
      if all_chars is_decimal_char s then Returned (decimal_value 0 s)
      else Raised ValueError
  end.

(** [sep.join(l)] *)
Fixpoint join (sep : string) (l : list string) : string :=
  match l with
  | [] => ""
  | [x] => x
  | x :: r => x ++ sep ++ join sep r
  end.

End Py.

(** ** Objects and the store *)

(** [NodeType = Enum('BinOpNodeType', ['number', 'operator'])] *)
Inductive NodeType := number | operator.

Global Instance NodeType_eq_dec : EqDecision NodeType.
Proof. solve_decision. Defined.

Definition addr := nat.

(** What an attribute [left] or [right] can hold: the constant [False], or a
    reference to a [BinOpAst] object. *)
Inductive value := VFalse | VObj (a : addr).

Global Instance value_eq_dec : EqDecision value.
Proof. solve_decision. Defined.

(** A [BinOpAst] object: each of its four attributes is either unset or holds
    a value.  [__init__] leaves all four unset on an empty token list. *)
Module Node.
Record t := mk {
  val : option string;
  type : option NodeType;
  left : option value;
  right : option value
}.
Definition bare : t := mk None None None None.
Definition set_val (x : string) (o : t) : t := mk (Some x) (type o) (left o) (right o).
Definition set_type (x : NodeType) (o : t) : t := mk (val o) (Some x) (left o) (right o).
Definition set_left (x : value) (o : t) : t := mk (val o) (type o) (Some x) (right o).
Definition set_right (x : value) (o : t) : t := mk (val o) (type o) (left o) (Some x).
End Node.

(** The state of a run: the store of objects (an object's address is its
    index; objects are never freed) and the token list [prefix_list], which
    the constructor shares between all its recursive calls and mutates. *)
Record state := mk_state {
  heap : list Node.t;
  prefix_list : list string
}.

(** ** The monad of runs *)

Definition M (A : Type) : Type := state -> outcome (A * state).

Global Instance M_ret : MRet M := fun A x s => Returned (x, s).
Global Instance M_bind : MBind M := fun A B f m s =>
  match m s with
  | Returned (x, s') => f x s'
  | Raised e => Raised e
  | Stuck => Stuck
  end.
Global Instance M_throw : MThrow exn M := fun A e s => Raised e.

Definition stuck {A} : M A := fun _ => Stuck.

(** Lift the outcome of a pure builtin. *)
Definition lift {A} (r : outcome A) : M A := fun s =>
  match r with
  | Returned x => Returned (x, s)
  | Raised e => Raised e
  | Stuck => Stuck
  end.

(** A fresh object with no attribute set; its address is returned. *)
Definition alloc : M addr := fun s =>
  Returned (length (heap s), mk_state (heap s ++ [Node.bare]) (prefix_list s)).

(** The object a value refers to.  [False] has none of the attributes or
    methods of a [BinOpAst], so going through it raises [AttributeError]. *)
Definition deref (v : value) : M Node.t := fun s =>
  match v with
  | VFalse => Raised AttributeError
  | VObj a =>
      match heap s !! a with
      | Some o => Returned (o, s)
      | None => Stuck
      end
  end.

(** Attribute read [v.name]: [AttributeError] when the attribute is unset. *)
Definition getattr {A} (name : Node.t -> option A) (v : value) : M A :=
  o ← deref v;
  match name o with
  | Some x => mret x
  | None => mthrow AttributeError
  end.

(** Attribute write [self.name = x]. *)
Definition setattr {A} (set : A -> Node.t -> Node.t) (self : addr) (x : A) : M unit := fun s =>
  match heap s !! self with
  | Some o => Returned (tt, mk_state (<[self := set x o]> (heap s)) (prefix_list s))
  | None => Stuck
  end.

(** [if prefix_list:] a list is true when it is not empty. *)
Definition prefix_list_nonempty : M bool := fun s =>
  Returned (match prefix_list s with [] => false | _ :: _ => true end, s).

(** [prefix_list.pop(0)] *)
Definition prefix_list_pop0 : M string := fun s =>
  match prefix_list s with
  | [] => Raised IndexError
  | x :: r => Returned (x, mk_state (heap s) r)
  end.

(** ** The class [BinOpAst] *)

(** [BinOpAst.__init__(self, prefix_list)].  The recursion is on a budget of
    nested calls, since neither the store nor the token list decreases
    structurally. *)
Fixpoint BinOpAst_init (fuel : nat) (self : addr) : M unit :=
  match fuel with
  | O => stuck
  | S fuel' =>
      let BinOpAst : M addr :=
        (a ← alloc; BinOpAst_init fuel' a;; mret a) in
      b ← prefix_list_nonempty;
      if b : bool then
        tok ← prefix_list_pop0;
        setattr Node.set_val self tok;;
        v ← getattr Node.val (VObj self);
        if Py.isnumeric v then
          setattr Node.set_type self number;;
          setattr Node.set_left self VFalse;;
          setattr Node.set_right self VFalse
        else
          setattr Node.set_type self operator;;
          l ← BinOpAst;
          setattr Node.set_left self (VObj l);;
          r ← BinOpAst;
          setattr Node.set_right self (VObj r)
      else mret tt
  end.

(** The call [BinOpAst(prefix_list)]: a new object, initialised. *)
Definition BinOpAst (fuel : nat) : M addr :=
  a ← alloc; BinOpAst_init fuel a;; mret a.

(** [v.method()]: [False] has no method of the class. *)
Definition call {A} (v : value) (method : addr -> M A) : M A :=
  match v with
  | VFalse => mthrow AttributeError
  | VObj a => method a
  end.

(** [self.f.g] *)
Definition getattr2 {A} (f : Node.t -> option value) (g : Node.t -> option A)
    (self : addr) : M A :=
  x ← getattr f (VObj self); getattr g x.

(** [BinOpAst.prefix_str(self)] *)
Fixpoint prefix_str (fuel : nat) (self : addr) : M string :=
  match fuel with
  | O => stuck
  | S fuel' =>
      t ← getattr Node.type (VObj self);
      match t with
      | number => getattr Node.val (VObj self)
      | operator =>
          v ← getattr Node.val (VObj self);
          l ← getattr Node.left (VObj self);
          ls ← call l (prefix_str fuel');
          r ← getattr Node.right (VObj self);
          rs ← call r (prefix_str fuel');
          mret ((((v ++ " ") ++ ls) ++ " ") ++ rs)
      end
  end.

(** [s * n] on a text. *)
Fixpoint str_mul (s : string) (n : nat) : string :=
  match n with
  | O => ""
  | S n' => s ++ str_mul s n'
  end.

(** The newline character. *)
Definition nl : string := String (ascii_of_nat 10) EmptyString.

(** [BinOpAst.__str__(self, indent)].  The test [if self.left] is on the
    truth value of the attribute: [False] is false, an object is true. *)
Fixpoint BinOpAst_str (fuel : nat) (self : addr) (indent : nat) : M string :=
  match fuel with
  | O => stuck
  | S fuel' =>
      let ilvl := str_mul "  " indent in
      c ← getattr Node.left (VObj self);
      left ← match c with
             | VFalse => mret ""
             | VObj _ =>
                 l ← getattr Node.left (VObj self);
                 s ← call l (fun a => BinOpAst_str fuel' a (indent + 1));
                 mret (((nl ++ "  ") ++ ilvl) ++ s)
             end;
      c' ← getattr Node.right (VObj self);
      right ← match c' with
              | VFalse => mret ""
              | VObj _ =>
                  r ← getattr Node.right (VObj self);
                  s ← call r (fun a => BinOpAst_str fuel' a (indent + 1));
                  mret (((nl ++ "  ") ++ ilvl) ++ s)
              end;
      v ← getattr Node.val (VObj self);
      mret (((ilvl ++ v) ++ left) ++ right)
  end.

(** The test [self.f.val.isnumeric() and int(self.f.val) == k] of the
    identity rules, [and] evaluating its right operand only when the left
    one is true. *)
Definition numeric_and_equals (f : Node.t -> option value) (self : addr) (k : Z) : M bool :=
  v ← getattr2 f Node.val self;
  if Py.isnumeric v then
    v' ← getattr2 f Node.val self;
    n ← lift (Py.int v');
    mret (n =? k)%Z
  else mret false.

(** [BinOpAst.additive_identity(self)] *)
Definition additive_identity (self : addr) : M unit :=
  v ← getattr Node.val (VObj self);
  if String.eqb v "+" then
    c ← numeric_and_equals Node.left self 0;
    if c : bool then
      x ← getattr2 Node.right Node.val self;
      setattr Node.set_val self x;;
      t ← getattr2 Node.right Node.type self;
      setattr Node.set_type self t;;
      t' ← getattr2 Node.right Node.type self;
      if decide (t' = operator) then
        y ← getattr2 Node.right Node.left self;
        setattr Node.set_left self y;;
        z ← getattr2 Node.right Node.right self;
        setattr Node.set_right self z
      else
        setattr Node.set_left self VFalse;;
        setattr Node.set_right self VFalse
    else
      c' ← numeric_and_equals Node.right self 0;
      if c' : bool then
        x ← getattr2 Node.left Node.val self;
        setattr Node.set_val self x;;
        t ← getattr2 Node.left Node.type self;
        setattr Node.set_type self t;;
        t' ← getattr2 Node.left Node.type self;
        if decide (t' = operator) then
          y ← getattr2 Node.left Node.left self;
          setattr Node.set_left self y;;
          z ← getattr2 Node.left Node.right self;
          setattr Node.set_right self z
        else
          setattr Node.set_left self VFalse;;
          setattr Node.set_right self VFalse
      else mret tt
  else mret tt.

(** [BinOpAst.multiplicative_identity(self)] *)
Definition multiplicative_identity (self : addr) : M unit :=
  v ← getattr Node.val (VObj self);
  if String.eqb v "*" then
    c ← numeric_and_equals Node.left self 1;
    if c : bool then
      x ← getattr2 Node.right Node.val self;
      setattr Node.set_val self x;;
      t ← getattr2 Node.right Node.type self;
      setattr Node.set_type self t;;
      t' ← getattr2 Node.right Node.type self;
      if decide (t' = operator) then
        y ← getattr2 Node.right Node.left self;
        setattr Node.set_left self y;;
        z ← getattr2 Node.right Node.right self;
        setattr Node.set_right self z
      else
        setattr Node.set_left self VFalse;;
        setattr Node.set_right self VFalse
    else
      c' ← numeric_and_equals Node.right self 1;
      if c' : bool then
        x ← getattr2 Node.left Node.val self;
        setattr Node.set_val self x;;
        t ← getattr2 Node.left Node.type self;
        setattr Node.set_type self t;;
        t' ← getattr2 Node.left Node.type self;
        if decide (t' = operator) then
          y ← getattr2 Node.left Node.left self;
          setattr Node.set_left self y;;
          z ← getattr2 Node.left Node.right self;
          setattr Node.set_right self z
        else
          setattr Node.set_left self VFalse;;
          setattr Node.set_right self VFalse
      else mret tt
  else mret tt.

(** [BinOpAst.mult_by_zero(self)]; [or] evaluates its right operand only
    when the left one is false. *)
Definition mult_by_zero (self : addr) : M unit :=
  v ← getattr Node.val (VObj self);
  if String.eqb v "*" then
    c ← numeric_and_equals Node.left self 0;
    c' ← (if c : bool then mret true else numeric_and_equals Node.right self 0);
    if c' : bool then
      setattr Node.set_val self "0";;
      setattr Node.set_type self number;;
      setattr Node.set_left self VFalse;;
      setattr Node.set_right self VFalse
    else mret tt
  else mret tt.

(** [BinOpAst.simplify_binops(self)]; the calls to [mult_by_zero] and
    [constant_fold] are commented out in the source. *)
Fixpoint simplify_binops (fuel : nat) (self : addr) : M unit :=
  match fuel with
  | O => stuck
  | S fuel' =>
      lt ← getattr2 Node.left Node.type self;
      (if decide (lt = operator) then
         l ← getattr Node.left (VObj self); call l (simplify_binops fuel')
       else mret tt);;
      rt ← getattr2 Node.right Node.type self;
      (if decide (rt = operator) then
         r ← getattr Node.right (VObj self); call r (simplify_binops fuel')
       else mret tt);;
      additive_identity self;;
      multiplicative_identity self
  end.

(** ** Entry points

    Each entry point runs the recursive method with a budget that covers the
    deepest chain of calls it can make: the constructor makes at most one
    nested call per token and one more on the empty list; a traversal of a
    store whose references all point to later objects nests at most once per
    object. *)
Definition build : M addr := fun s =>
  BinOpAst (S (length (prefix_list s))) s.

Definition simplify (self : addr) : M unit := fun s =>
  simplify_binops (S (length (heap s))) self s.

Definition toPrefix (self : addr) : M string := fun s =>
  prefix_str (S (length (heap s))) self s.

(** [str(self)], which is also [BinOpAst.__repr__(self)]. *)
Definition str (self : addr) : M string := fun s =>
  BinOpAst_str (S (length (heap s))) self 0 s.

Definition BinOpAst_repr (self : addr) : M string := str self.

(** The body of the loop of [Test_BinOps.generic_test], from the token
    list to the string compared with the expected line. *)
Definition run_line : M string :=
  AST ← build; simplify AST;; toPrefix AST.

Definition initial (input_list : list string) : state := mk_state [] input_list.

(** The value an outcome carries, without the final state. *)
Definition result {A} (r : outcome (A * state)) : outcome A :=
  match r with
  | Returned (x, _) => Returned x
  | Raised e => Raised e
  | Stuck => Stuck
  end.

Definition run (input_list : list string) : outcome string :=
  result (run_line (initial input_list)).

(** ** Well-formed prefix expressions

    The grammar of the input, with the classification of tokens the
    constructor uses: a token for which [isnumeric] holds is a number, any
    other token is an operator and is followed by two sub-expressions. *)
Inductive wf_prefix : list string -> Prop :=
| wf_number n :
    Py.isnumeric n = true -> wf_prefix [n]
| wf_operator op x y :
    Py.isnumeric op = false -> wf_prefix x -> wf_prefix y ->
    wf_prefix (op :: x ++ y).

(** The grammar as a check that runs: [skip_expr fuel l] removes one
    expression from the front of [l], and a list is well formed when doing
    so leaves nothing. *)
Fixpoint skip_expr (fuel : nat) (l : list string) : option (list string) :=
  match fuel with
  | O => None
  | S fuel' =>
      match l with
      | [] => None
      | tok :: r =>
          if Py.isnumeric tok then Some r
          else match skip_expr fuel' r with
               | Some r1 => skip_expr fuel' r1
               | None => None
               end
      end
  end.

Definition wf_prefixb (l : list string) : bool :=
  match skip_expr (length l) l with
  | Some [] => true
  | _ => false
  end.

(** The expression a well-formed token list denotes. *)
Inductive expr :=
| Num (n : string)
| Bin (op : string) (l r : expr).

Fixpoint tokens (e : expr) : list string :=
  match e with
  | Num n => [n]
  | Bin op l r => op :: tokens l ++ tokens r
  end.

Fixpoint well_labelled (e : expr) : Prop :=
  match e with
  | Num n => Py.isnumeric n = true
  | Bin op l r => Py.isnumeric op = false /\ well_labelled l /\ well_labelled r
  end.

Fixpoint size (e : expr) : nat :=
  match e with
  | Num _ => 1
  | Bin _ l r => S (size l + size r)
  end.

Fixpoint height (e : expr) : nat :=
  match e with
  | Num _ => 1
  | Bin _ l r => S (Nat.max (height l) (height r))
  end.

(** The objects the constructor allocates for an expression when the next
    free address is [base]: the node itself, then the objects of its left
    operand, then those of its right operand. *)
Fixpoint layout (base : addr) (e : expr) : list Node.t :=
  match e with
  | Num n => [Node.mk (Some n) (Some number) (Some VFalse) (Some VFalse)]
  | Bin op l r =>
      Node.mk (Some op) (Some operator)
              (Some (VObj (S base))) (Some (VObj (S base + size l)))
      :: layout (S base) l ++ layout (S base + size l) r
  end.

(** The store holds expression [e] at address [a]. *)
Fixpoint repr (h : list Node.t) (a : addr) (e : expr) : Prop :=
  match e with
  | Num n =>
      h !! a = Some (Node.mk (Some n) (Some number) (Some VFalse) (Some VFalse))
  | Bin op l r =>
      exists al ar,
        h !! a = Some (Node.mk (Some op) (Some operator)
                               (Some (VObj al)) (Some (VObj ar)))
        /\ repr h al l /\ repr h ar r
  end.

(** The structural invariant of the data model, on the part of the store
    reachable from a node: a number has no children (both attributes hold
    [False]), an operator has two, each of them a node satisfying the
    invariant. *)
Inductive well_shaped (h : list Node.t) : addr -> Prop :=
| ws_number a o :
    h !! a = Some o ->
    Node.type o = Some number ->
    Node.left o = Some VFalse -> Node.right o = Some VFalse ->
    well_shaped h a
| ws_operator a o l r :
    h !! a = Some o ->
    Node.type o = Some operator ->
    Node.left o = Some (VObj l) -> Node.right o = Some (VObj r) ->
    well_shaped h l -> well_shaped h r ->
    well_shaped h a.

(** ** Notions used to state the properties *)

(** [r1] is what [r2] is, unless the budget ran out first. *)
Definition refines {A} (r1 r2 : outcome A) : Prop := r1 = Stuck \/ r1 = r2.

(** The operand text [t] passes, or does not pass, the test
    [t.isnumeric() and int(t) == k]. *)
Definition is_literal (k : Z) (t : string) : Prop :=
  Py.isnumeric t = true /\ Py.int t = Returned k.

Definition not_literal (k : Z) (t : string) : Prop :=
  Py.isnumeric t = false \/ exists m, Py.int t = Returned m /\ m <> k.

(** The store [build] makes for [op a b] with [a] and [b] numbers. *)
Definition leaf (n : string) : Node.t :=
  Node.mk (Some n) (Some number) (Some VFalse) (Some VFalse).

Definition store3 (op a b : string) : list Node.t :=
  [Node.mk (Some op) (Some operator) (Some (VObj 1)) (Some (VObj 2)); leaf a; leaf b].

(** ** The simplification the rules describe, on expressions

    The docstrings of the two rules state them as [x + 0 = x] and
    [x * 1 = x]; [simplify_binops] applies them bottom-up, the additive rule
    before the multiplicative one.  [simp] is that rewriting on expressions,
    with the tests and their order taken from the source. *)

(** A text made of decimal digits, at least one. *)
Definition decimal (t : string) : bool :=
  match t with
  | EmptyString => false
  | String _ _ => Py.all_chars Py.is_decimal_char t
  end.

(** Numbers are decimal texts, operators are not numeric. *)
Fixpoint plain (e : expr) : Prop :=
  match e with
  | Num n => decimal n = true
  | Bin op l r => Py.isnumeric op = false /\ plain l /\ plain r
  end.

(** The operand is a number whose text parses to [k]. *)
Definition lit (k : Z) (e : expr) : bool :=
  match e with
  | Num t =>
      Py.isnumeric t
      && match Py.int t with
         | Returned m => (m =? k)%Z
         | _ => false
         end
  | Bin _ _ _ => false
  end.

Definition is_bin (e : expr) : bool :=
  match e with
  | Num _ => false
  | Bin _ _ _ => true
  end.

(** One identity rule at the root: operator [sym], identity element [k].
    The left operand is tested first. *)
Definition rule (sym : string) (k : Z) (e : expr) : expr :=
  match e with
  | Num _ => e
  | Bin op x y =>
      if String.eqb op sym then
        if lit k x then y
        else if lit k y then x
        else e
      else e
  end.

Fixpoint simp (e : expr) : expr :=
  match e with
  | Num n => Num n
  | Bin op l r => rule "*" 1 (rule "+" 0 (Bin op (simp l) (simp r)))
  end.

(** The configuration in which the source departs from [rule]: the right
    operand is the identity element and the left operand is an operator
    node (the second assignment of that branch reads the node it has just
    overwritten). *)
Definition slips (sym : string) (k : Z) (e : expr) : bool :=
  match e with
  | Num _ => false
  | Bin op x y => String.eqb op sym && negb (lit k x) && lit k y && is_bin x
  end.

(** No rule application of the whole pass meets that configuration. *)
Fixpoint safe (e : expr) : bool :=
  match e with
  | Num _ => true
  | Bin op l r =>
      safe l && safe r
      && negb (slips "+" 0 (Bin op (simp l) (simp r)))
      && negb (slips "*" 1 (rule "+" 0 (Bin op (simp l) (simp r))))
  end.

(** No node has an operand that one of the two rules removes. *)
Fixpoint irreducible (e : expr) : bool :=
  match e with
  | Num _ => true
  | Bin op l r =>
      irreducible l && irreducible r
      && negb (String.eqb op "+" && (lit 0 l || lit 0 r))
      && negb (String.eqb op "*" && (lit 1 l || lit 1 r))
  end.

(** The store holds expression [e] at address [a] as a tree: the node lies
    in the range [lo, hi), its left operand in a range after the node, its
    right operand in a range after that of the left operand.  Distinct
    subtrees therefore share no object. *)
Fixpoint within (lo hi : addr) (h : list Node.t) (a : addr) (e : expr) : Prop :=
  match e with
  | Num n => lo <= a < hi /\ h !! a = Some (leaf n)
  | Bin op l r =>
      exists al ar m,
        lo <= a < hi
        /\ h !! a = Some (Node.mk (Some op) (Some operator)
                                  (Some (VObj al)) (Some (VObj ar)))
        /\ within (S a) m h al l /\ within m hi h ar r
  end.

(** ** Notions for the other methods *)

(** What the test of a rule finds on the value of an operand. *)
Definition root_val (e : expr) : string :=
  match e with Num n => n | Bin op _ _ => op end.

(** [x * 0 = 0] at the root, on expressions. *)
Definition mbz (e : expr) : expr :=
  match e with
  | Num _ => e
  | Bin op x y =>
      if String.eqb op "*" && (lit 0 x || lit 0 y) then Num "0" else e
  end.

(** A tree as [__str__] sees it: a child is absent ([False]) or a node with
    a value; the type of a node is not looked at. *)
Inductive ptree :=
| PNone
| PNode (v : string) (l r : ptree).

Fixpoint prepr (h : list Node.t) (x : value) (t : ptree) : Prop :=
  match t with
  | PNone => x = VFalse
  | PNode v l r =>
      exists a o cl cr,
        x = VObj a /\ h !! a = Some o
        /\ Node.val o = Some v
        /\ Node.left o = Some cl /\ Node.right o = Some cr
        /\ prepr h cl l /\ prepr h cr r
  end.

Fixpoint pheight (t : ptree) : nat :=
  match t with
  | PNone => 0
  | PNode _ l r => S (Nat.max (pheight l) (pheight r))
  end.

(** The values of the nodes in prefix order, each with its depth. *)
Fixpoint depth_tokens (d : nat) (t : ptree) : list (nat * string) :=
  match t with
  | PNone => []
  | PNode v l r => (d, v) :: depth_tokens (S d) l ++ depth_tokens (S d) r
  end.

Definition spaces (n : nat) : string := str_mul " " n.

(** A line of the rendering: four spaces for each level of depth. *)
Definition line (x : nat * string) : string := spaces (4 * fst x) ++ snd x.

Fixpoint cat (l : list string) : string :=
  match l with
  | [] => ""
  | x :: r => x ++ cat r
  end.

Fixpoint ptree_of (e : expr) : ptree :=
  match e with
  | Num n => PNode n PNone PNone
  | Bin op l r => PNode op (ptree_of l) (ptree_of r)
  end.

(** What [__str__] returns at indentation [i] for the subtree below a node:
    every node below is on a line of its own, after a newline. *)
Definition below (i : nat) (l r : ptree) : string :=
  cat (map (fun x => nl ++ line x) (depth_tokens (S i) l ++ depth_tokens (S i) r)).

(** What the constructor makes of any token list: where the list ends
    early, the node is an object without attributes. *)
Inductive built :=
| BBare
| BNum (n : string)
| BOp (op : string) (l r : built).

Fixpoint parse (fuel : nat) (toks : list string) : built * list string :=
  match fuel with
  | O => (BBare, toks)
  | S fuel' =>
      match toks with
      | [] => (BBare, [])
      | tok :: rest =>
          if Py.isnumeric tok then (BNum tok, rest)
          else
            let (l, rest1) := parse fuel' rest in
            let (r, rest2) := parse fuel' rest1 in
            (BOp tok l r, rest2)
      end
  end.

Fixpoint bsize (b : built) : nat :=
  match b with
  | BBare => 1
  | BNum _ => 1
  | BOp _ l r => S (bsize l + bsize r)
  end.

Fixpoint blayout (base : addr) (b : built) : list Node.t :=
  match b with
  | BBare => [Node.bare]
  | BNum n => [Node.mk (Some n) (Some number) (Some VFalse) (Some VFalse)]
  | BOp op l r =>
      Node.mk (Some op) (Some operator)
              (Some (VObj (S base))) (Some (VObj (S base + bsize l)))
      :: blayout (S base) l ++ blayout (S base + bsize l) r
  end.


(** Every returning run of [m] relates the state it starts in to the state
    it ends in by [P]. *)
Definition preserves {A} (P : state -> state -> Prop) (m : M A) : Prop :=
  forall s r s', m s = Returned (r, s') -> P s s'.

(** Only the object at [self] may have been written; nothing was allocated
    and the token list was not touched. *)
Definition only_wrote (self : addr) (s s' : state) : Prop :=
  length (heap s') = length (heap s)
  /\ prefix_list s' = prefix_list s
  /\ forall b, b <> self -> heap s' !! b = heap s !! b.

(** Nothing was allocated and the token list was not touched. *)
Definition same_size (s s' : state) : Prop :=
  length (heap s') = length (heap s) /\ prefix_list s' = prefix_list s.

(** * Properties *)

(** ** The builtins on sample texts *)

Example isnumeric_samples :
  Py.isnumeric "0" = true /\ Py.isnumeric "007" = true
  /\ Py.isnumeric "" = false /\ Py.isnumeric "+" = false
  /\ Py.isnumeric "*" = false /\ Py.isnumeric "-5" = false
  /\ Py.isnumeric "1 2" = false.
Proof. repeat split; reflexivity. Qed.

Example int_samples :
  Py.int "0" = Returned 0%Z /\ Py.int "000" = Returned 0%Z
  /\ Py.int "01" = Returned 1%Z /\ Py.int "42" = Returned 42%Z.
Proof. repeat split; reflexivity. Qed.

(** Superscript two is numeric, and is not an integer literal. *)
Example superscript_two :
  let s := String (ascii_of_nat 178) EmptyString in
  Py.isnumeric s = true /\ Py.int s = Raised ValueError.
Proof. split; reflexivity. Qed.

Example join_samples :
  Py.join " " ["+"; "3"; "5"] = "+ 3 5" /\ Py.join " " ["7"] = "7".
Proof. split; reflexivity. Qed.

(** ** Running a sequence step by step *)

Lemma bind_returned {A B} (m : M A) (f : A -> M B) s x s' :
  m s = Returned (x, s') -> (m ≫= f) s = f x s'.
Proof. intros H. unfold mbind, M_bind. now rewrite H. Qed.

Lemma bind_raised {A B} (m : M A) (f : A -> M B) s e :
  m s = Raised e -> (m ≫= f) s = Raised e.
Proof. intros H. unfold mbind, M_bind. now rewrite H. Qed.

Lemma bind_stuck {A B} (m : M A) (f : A -> M B) s :
  m s = Stuck -> (m ≫= f) s = Stuck.
Proof. intros H. unfold mbind, M_bind. now rewrite H. Qed.

Lemma getattr_at {A} (name : Node.t -> option A) a s o x :
  heap s !! a = Some o -> name o = Some x ->
  getattr name (VObj a) s = Returned (x, s).
Proof.
  intros Ho Hx. unfold getattr.
  rewrite (bind_returned _ _ s o s) by (unfold deref; now rewrite Ho).
  now rewrite Hx.
Qed.

Lemma getattr_unset {A} (name : Node.t -> option A) a s o :
  heap s !! a = Some o -> name o = None ->
  getattr name (VObj a) s = Raised AttributeError.
Proof.
  intros Ho Hx. unfold getattr.
  rewrite (bind_returned _ _ s o s) by (unfold deref; now rewrite Ho).
  now rewrite Hx.
Qed.

Lemma getattr_False {A} (name : Node.t -> option A) s :
  getattr name VFalse s = Raised AttributeError.
Proof. reflexivity. Qed.

Lemma setattr_at {A} (set : A -> Node.t -> Node.t) a x s o :
  heap s !! a = Some o ->
  setattr set a x s
  = Returned (tt, mk_state (<[a := set x o]> (heap s)) (prefix_list s)).
Proof. intros Ho. unfold setattr. now rewrite Ho. Qed.

(** Reading and writing the object that sits right after a prefix [h] of the
    store. *)
Lemma getattr_mid {A} (name : Node.t -> option A) h o k toks x :
  name o = Some x ->
  getattr name (VObj (length h)) (mk_state (h ++ o :: k) toks)
  = Returned (x, mk_state (h ++ o :: k) toks).
Proof.
  intros Hx. apply getattr_at with o; [|exact Hx].
  simpl. apply list_lookup_middle. reflexivity.
Qed.

Lemma setattr_mid {A} (set : A -> Node.t -> Node.t) h o k toks x :
  setattr set (length h) x (mk_state (h ++ o :: k) toks)
  = Returned (tt, mk_state (h ++ set x o :: k) toks).
Proof.
  rewrite setattr_at with (o := o) by (simpl; now apply list_lookup_middle).
  simpl. rewrite insert_app_r_alt by lia.
  now rewrite Nat.sub_diag.
Qed.

Lemma length_layout base e : length (layout base e) = size e.
Proof.
  revert base. induction e as [n | op l IHl r IHr]; intros base; simpl.
  - reflexivity.
  - rewrite length_app, IHl, IHr. reflexivity.
Qed.

Lemma height_le_size e : height e <= size e.
Proof. induction e; simpl; lia. Qed.

Lemma length_tokens e : length (tokens e) = size e.
Proof. induction e; simpl; [reflexivity|]. rewrite length_app. lia. Qed.

(** ** One level of each recursive method *)

Lemma BinOpAst_init_S fuel self :
  BinOpAst_init (S fuel) self
  = (b ← prefix_list_nonempty;
     if b : bool then
       tok ← prefix_list_pop0;
       setattr Node.set_val self tok;;
       v ← getattr Node.val (VObj self);
       if Py.isnumeric v then
         setattr Node.set_type self number;;
         setattr Node.set_left self VFalse;;
         setattr Node.set_right self VFalse
       else
         setattr Node.set_type self operator;;
         l ← BinOpAst fuel;
         setattr Node.set_left self (VObj l);;
         r ← BinOpAst fuel;
         setattr Node.set_right self (VObj r)
     else mret tt).
Proof. reflexivity. Qed.

Lemma prefix_str_S fuel self :
  prefix_str (S fuel) self
  = (t ← getattr Node.type (VObj self);
     match t with
     | number => getattr Node.val (VObj self)
     | operator =>
         v ← getattr Node.val (VObj self);
         l ← getattr Node.left (VObj self);
         ls ← call l (prefix_str fuel);
         r ← getattr Node.right (VObj self);
         rs ← call r (prefix_str fuel);
         mret ((((v ++ " ") ++ ls) ++ " ") ++ rs)
     end).
Proof. reflexivity. Qed.

Lemma simplify_binops_S fuel self :
  simplify_binops (S fuel) self
  = (lt ← getattr2 Node.left Node.type self;
     (if decide (lt = operator) then
        l ← getattr Node.left (VObj self); call l (simplify_binops fuel)
      else mret tt);;
     rt ← getattr2 Node.right Node.type self;
     (if decide (rt = operator) then
        r ← getattr Node.right (VObj self); call r (simplify_binops fuel)
      else mret tt);;
     additive_identity self;;
     multiplicative_identity self).
Proof. reflexivity. Qed.

(** ** The constructor on a well-formed token list *)

(** [mstep tac]: run the first action of a sequence, [tac] proving what it
    returns. *)
Tactic Notation "mstep" tactic3(tac) :=
  erewrite bind_returned; [| solve [tac]]; cbn [prefix_list heap].

Lemma BinOpAst_init_layout e :
  well_labelled e ->
  forall fuel h rest,
    height e <= fuel ->
    BinOpAst_init fuel (length h) (mk_state (h ++ [Node.bare]) (tokens e ++ rest))
    = Returned (tt, mk_state (h ++ layout (length h) e) rest).
Proof.
  induction e as [n | op l IHl r IHr]; intros Hwl fuel h rest Hfuel;
    (destruct fuel as [|fuel]; [simpl in Hfuel; lia|]); simpl in Hwl.
  - cbn [BinOpAst_init tokens app].
    mstep reflexivity. mstep reflexivity.
    mstep (apply setattr_mid).
    mstep (apply getattr_mid; reflexivity).
    rewrite Hwl.
    mstep (apply setattr_mid).
    mstep (apply setattr_mid).
    rewrite setattr_mid. reflexivity.
  - destruct Hwl as (Hop & Hl & Hr). simpl in Hfuel.
    cbn [BinOpAst_init tokens app].
    mstep reflexivity. mstep reflexivity.
    mstep (apply setattr_mid).
    mstep (apply getattr_mid; reflexivity).
    rewrite Hop.
    mstep (apply setattr_mid).
    change (alloc ≫= λ a : addr, BinOpAst_init fuel a ≫= λ _ : (), mret a)
      with (BinOpAst fuel).
    assert (Hcall : forall e, (forall h rest,
              BinOpAst_init fuel (length h)
                (mk_state (h ++ [Node.bare]) (tokens e ++ rest))
              = Returned (tt, mk_state (h ++ layout (length h) e) rest)) ->
            forall h rest,
              BinOpAst fuel (mk_state h (tokens e ++ rest))
              = Returned (length h, mk_state (h ++ layout (length h) e) rest)).
    { intros e He h0 rest0. unfold BinOpAst.
      mstep reflexivity. mstep (apply He). reflexivity. }
    rewrite <- app_assoc.
    mstep (apply (Hcall l); intros; apply IHl; [assumption | lia]).
    rewrite length_app. cbn [length]. rewrite Nat.add_1_r.
    rewrite <- app_assoc. cbn [app].
    mstep (apply setattr_mid).
    match goal with |- context [mk_state ?x (tokens r ++ rest)] => set (h2 := x) end.
    mstep (apply (Hcall r); intros; apply IHr; [assumption | lia]).
    assert (Hlen : length h2 = S (length h) + size l).
    { subst h2. rewrite length_app. cbn [length]. rewrite length_layout. lia. }
    rewrite Hlen. subst h2. rewrite <- app_assoc. cbn [app].
    rewrite setattr_mid. reflexivity.
Qed.

Lemma BinOpAst_layout e :
  well_labelled e ->
  forall fuel h rest,
    height e <= fuel ->
    BinOpAst fuel (mk_state h (tokens e ++ rest))
    = Returned (length h, mk_state (h ++ layout (length h) e) rest).
Proof.
  intros Hwl fuel h rest Hfuel. unfold BinOpAst.
  mstep reflexivity.
  mstep (apply BinOpAst_init_layout; assumption).
  reflexivity.
Qed.

(** ** The store the constructor builds holds the expression *)

Lemma repr_app h k a e : repr h a e -> repr (h ++ k) a e.
Proof.
  revert a. induction e as [n | op l IHl r IHr]; intros a; simpl.
  - intros H. now apply lookup_app_l_Some.
  - intros (al & ar & Ha & Hl & Hr). exists al, ar.
    split; [now apply lookup_app_l_Some|]. split; auto.
Qed.

Lemma repr_layout e : forall h, repr (h ++ layout (length h) e) (length h) e.
Proof.
  induction e as [n | op l IHl r IHr]; intros h; simpl.
  - now apply list_lookup_middle.
  - exists (S (length h)), (S (length h + size l)).
    split; [now apply list_lookup_middle|]. split.
    + set (o := Node.mk _ _ _ _).
      specialize (IHl (h ++ [o])%list).
      rewrite length_app in IHl. cbn [length] in IHl.
      rewrite Nat.add_1_r, <- app_assoc in IHl. cbn [app] in IHl.
      apply repr_app with (k := layout (S (length h + size l)) r) in IHl.
      now rewrite <- app_assoc in IHl.
    + set (o := Node.mk _ _ _ _).
      specialize (IHr (h ++ o :: layout (S (length h)) l)%list).
      rewrite length_app in IHr. cbn [length] in IHr.
      rewrite length_layout in IHr.
      replace (length h + S (size l)) with (S (length h + size l)) in IHr by lia.
      now rewrite <- app_assoc in IHr.
Qed.

Lemma repr_well_shaped h e : forall a, repr h a e -> well_shaped h a.
Proof.
  induction e as [n | op l IHl r IHr]; intros a; simpl.
  - intros H. eapply ws_number; [exact H | reflexivity ..].
  - intros (al & ar & Ha & Hl & Hr).
    eapply ws_operator; [exact Ha | reflexivity .. | auto | auto].
Qed.

(** ** Serialization of a stored expression *)

Lemma tokens_nonempty e : tokens e <> [].
Proof. destruct e; discriminate. Qed.

Lemma append_assoc (a b c : string) : ((a ++ b) ++ c = a ++ (b ++ c))%string.
Proof.
  induction a as [|ch a IH]; [reflexivity|].
  change (String ch ((a ++ b) ++ c) = String ch (a ++ (b ++ c)))%string.
  now rewrite IH.
Qed.

Lemma join_app sep x y :
  x <> [] -> y <> [] ->
  Py.join sep (x ++ y) = (Py.join sep x ++ sep ++ Py.join sep y)%string.
Proof.
  intros Hx Hy. induction x as [|a x IH]; [congruence|].
  destruct x as [|b x].
  - simpl. destruct y; [congruence | reflexivity].
  - change (Py.join sep ((a :: b :: x) ++ y))
      with (a ++ sep ++ Py.join sep ((b :: x) ++ y))%string.
    rewrite IH by discriminate.
    change (Py.join sep (a :: b :: x))
      with (a ++ sep ++ Py.join sep (b :: x))%string.
    now rewrite !append_assoc.
Qed.

Lemma join_tokens_Bin op l r :
  Py.join " " (tokens (Bin op l r))
  = ((((op ++ " ") ++ Py.join " " (tokens l)) ++ " ") ++ Py.join " " (tokens r))%string.
Proof.
  cbn [tokens].
  assert (Hne : (tokens l ++ tokens r)%list <> []).
  { intros H. apply app_eq_nil in H. now apply (tokens_nonempty l). }
  change (Py.join " " (op :: tokens l ++ tokens r))
    with (match (tokens l ++ tokens r)%list with
          | [] => op
          | _ :: _ => op ++ " " ++ Py.join " " (tokens l ++ tokens r)
          end)%string.
  destruct (tokens l ++ tokens r)%list eqn:E; [congruence|]. rewrite <- E.
  rewrite join_app by apply tokens_nonempty.
  now rewrite !append_assoc.
Qed.

Lemma prefix_str_repr e :
  forall fuel a s,
    repr (heap s) a e -> height e <= fuel ->
    prefix_str fuel a s = Returned (Py.join " " (tokens e), s).
Proof.
  induction e as [n | op l IHl r IHr]; intros fuel a s Hrepr Hfuel;
    (destruct fuel as [|fuel]; [simpl in Hfuel; lia|]); simpl in Hrepr.
  - cbn [prefix_str].
    mstep (eapply getattr_at; [exact Hrepr | reflexivity]).
    eapply getattr_at; [exact Hrepr | reflexivity].
  - destruct Hrepr as (al & ar & Ha & Hl & Hr). simpl in Hfuel.
    cbn [prefix_str].
    mstep (eapply getattr_at; [exact Ha | reflexivity]).
    mstep (eapply getattr_at; [exact Ha | reflexivity]).
    mstep (eapply getattr_at; [exact Ha | reflexivity]).
    cbn [call].
    mstep (apply IHl; [assumption | lia]).
    mstep (eapply getattr_at; [exact Ha | reflexivity]).
    cbn [call].
    mstep (apply IHr; [assumption | lia]).
    rewrite join_tokens_Bin. reflexivity.
Qed.

Lemma wf_prefix_expr l :
  wf_prefix l -> exists e, well_labelled e /\ tokens e = l.
Proof.
  induction 1 as [n Hn | op x y Hop _ (ex & Hex & <-) _ (ey & Hey & <-)].
  - exists (Num n). split; [exact Hn | reflexivity].
  - exists (Bin op ex ey). split; [|reflexivity].
    cbn [well_labelled]. auto.
Qed.

Lemma expr_wf_prefix e : well_labelled e -> wf_prefix (tokens e).
Proof.
  induction e as [n | op l IHl r IHr]; cbn [well_labelled tokens].
  - apply wf_number.
  - intros (Hop & Hl & Hr). apply wf_operator; auto.
Qed.

(** The recogniser decides the grammar. *)
Lemma skip_expr_sound fuel :
  forall l r, skip_expr fuel l = Some r -> exists x, wf_prefix x /\ l = (x ++ r)%list.
Proof.
  induction fuel as [|fuel IH]; intros l r H; [discriminate|].
  cbn [skip_expr] in H. destruct l as [|tok l]; [discriminate|].
  destruct (Py.isnumeric tok) eqn:Etok.
  - injection H as <-. exists [tok]. split; [now apply wf_number | reflexivity].
  - destruct (skip_expr fuel l) as [r1|] eqn:E1; [|discriminate].
    destruct (IH _ _ E1) as (x & Hx & ->).
    destruct (IH _ _ H) as (y & Hy & ->).
    exists (tok :: x ++ y)%list. split; [now apply wf_operator|].
    cbn [app]. now rewrite <- app_assoc.
Qed.

Lemma skip_expr_complete x :
  wf_prefix x ->
  forall r fuel, length x <= fuel -> skip_expr fuel (x ++ r)%list = Some r.
Proof.
  induction 1 as [n Hn | op x y Hop _ IHx _ IHy]; intros r fuel Hfuel;
    (destruct fuel as [|fuel]; [cbn in Hfuel; lia|]);
    cbn [skip_expr app].
  - now rewrite Hn.
  - cbn [length] in Hfuel. rewrite length_app in Hfuel.
    rewrite Hop, <- app_assoc, IHx by lia. apply IHy. lia.
Qed.

Lemma wf_prefixb_spec l : wf_prefixb l = true <-> wf_prefix l.
Proof.
  unfold wf_prefixb. split.
  - destruct (skip_expr (length l) l) as [[|? ?]|] eqn:E; try discriminate.
    intros _. destruct (skip_expr_sound _ _ _ E) as (x & Hx & ->).
    now rewrite app_nil_r.
  - intros H. pose proof (skip_expr_complete l H [] (length l) (le_n _)) as E.
    rewrite app_nil_r in E. now rewrite E.
Qed.

Lemma val_layout e : forall base, Node.val <$> layout base e = Some <$> tokens e.
Proof.
  induction e as [n | op l IHl r IHr]; intros base; cbn [layout tokens].
  - reflexivity.
  - rewrite !fmap_cons, !fmap_app, IHl, IHr. reflexivity.
Qed.

(** What [build] does on a store [h] and a token list that starts with a
    well-formed expression: the budget of the entry point is enough, the
    new node is the first free address, the store grows by the layout of the
    expression, and exactly the tokens of the expression are consumed. *)
Lemma build_layout e h rest :
  well_labelled e ->
  build (mk_state h (tokens e ++ rest))
  = Returned (length h, mk_state (h ++ layout (length h) e) rest).
Proof.
  intros Hwl. unfold build. cbn [prefix_list].
  apply BinOpAst_layout; [assumption|].
  rewrite length_app, length_tokens.
  pose proof (height_le_size e). lia.
Qed.

Lemma toPrefix_repr e a s :
  repr (heap s) a e -> size e <= length (heap s) ->
  toPrefix a s = Returned (Py.join " " (tokens e), s).
Proof.
  intros Hrepr Hsize. unfold toPrefix.
  apply prefix_str_repr; [assumption|].
  pose proof (height_le_size e). lia.
Qed.

Lemma roundtrip e :
  well_labelled e ->
  result ((AST ← build; toPrefix AST) (initial (tokens e)))
  = Returned (Py.join " " (tokens e)).
Proof.
  intros Hwl. unfold initial.
  rewrite <- (app_nil_r (tokens e)) at 1.
  mstep (apply build_layout; assumption).
  rewrite toPrefix_repr with (e := e).
  - reflexivity.
  - apply (repr_layout e []).
  - cbn [heap app]. now rewrite length_layout.
Qed.

(** A tree built from a well-formed token list satisfies the structural
    invariant. *)
Lemma build_well_shaped l :
  wf_prefix l ->
  exists a s, build (initial l) = Returned (a, s) /\ well_shaped (heap s) a.
Proof.
  intros (e & Hwl & <-)%wf_prefix_expr. unfold initial.
  rewrite <- (app_nil_r (tokens e)).
  rewrite build_layout by assumption.
  eexists _, _. split; [reflexivity|].
  cbn [heap]. eapply repr_well_shaped. apply (repr_layout e []).
Qed.

(** ** The constructor never fails *)

Lemma setattr_total {A} (set : A -> Node.t -> Node.t) self x s :
  self < length (heap s) ->
  exists s', setattr set self x s = Returned (tt, s')
             /\ length (heap s') = length (heap s)
             /\ prefix_list s' = prefix_list s.
Proof.
  intros Hlt. destruct (lookup_lt_is_Some_2 _ _ Hlt) as [o Ho].
  rewrite (setattr_at _ _ _ _ o Ho). eexists. split; [reflexivity|].
  cbn [heap prefix_list]. now rewrite length_insert.
Qed.

(** Whatever the token list, [__init__] returns when its budget exceeds the
    number of tokens; what it leaves of the token list is a suffix of what
    it found (tokens are only ever taken from the front), and no object
    disappears from the store. *)
Lemma BinOpAst_init_total fuel :
  forall self s,
    self < length (heap s) ->
    length (prefix_list s) < fuel ->
    exists s', BinOpAst_init fuel self s = Returned (tt, s')
               /\ prefix_list s' `suffix_of` prefix_list s
               /\ length (heap s) <= length (heap s').
Proof.
  induction fuel as [|fuel IH]; intros self s Hself Hfuel; [lia|].
  rewrite BinOpAst_init_S.
  destruct s as [h toks]. cbn [heap prefix_list] in *.
  destruct toks as [|tok toks].
  { mstep reflexivity. eexists. split; [reflexivity|]. split; [reflexivity|cbn; lia]. }
  mstep reflexivity. mstep reflexivity.
  destruct (lookup_lt_is_Some_2 _ _ Hself) as [o Ho].
  mstep (apply setattr_at with (o := o); exact Ho).
  mstep (eapply getattr_at;
         [cbn [heap]; apply list_lookup_insert_eq; exact Hself | reflexivity]).
  set (s1 := mk_state _ toks).
  assert (Hs1 : self < length (heap s1)) by (cbn; now rewrite length_insert).
  assert (Hh1 : length (heap s1) = length h) by (cbn; now rewrite length_insert).
  assert (Ht1 : prefix_list s1 = toks) by reflexivity.
  clearbody s1. clear Ho o. subst toks.
  cbn [length] in Hfuel.
  destruct (Py.isnumeric tok).
  - destruct (setattr_total Node.set_type self number s1 Hs1) as (s2 & E2 & L2 & T2).
    mstep (exact E2).
    destruct (setattr_total Node.set_left self VFalse s2 ltac:(lia)) as (s3 & E3 & L3 & T3).
    mstep (exact E3).
    destruct (setattr_total Node.set_right self VFalse s3 ltac:(lia)) as (s4 & E4 & L4 & T4).
    rewrite E4. eexists. split; [reflexivity|]. split; [|lia].
    rewrite T4, T3, T2. now apply suffix_cons_r.
  - destruct (setattr_total Node.set_type self operator s1 Hs1) as (s2 & E2 & L2 & T2).
    mstep (exact E2).
    assert (Hcall : forall s, length (prefix_list s) < fuel ->
              exists a s', BinOpAst fuel s = Returned (a, s')
                           /\ prefix_list s' `suffix_of` prefix_list s
                           /\ length (heap s) <= length (heap s')).
    { intros s Hs. unfold BinOpAst. mstep reflexivity.
      destruct (IH (length (heap s))
                  (mk_state (heap s ++ [Node.bare]) (prefix_list s)))
        as (s' & E & Lt & Lh).
      - cbn [heap]. rewrite length_app. cbn. lia.
      - exact Hs.
      - mstep (exact E). eexists _, _. split; [reflexivity|].
        cbn [heap prefix_list] in *. rewrite length_app in Lh.
        split; [exact Lt | lia]. }
    destruct (Hcall s2 ltac:(rewrite T2; lia)) as (l & s3 & E3 & T3 & L3).
    mstep (exact E3).
    pose proof (suffix_length _ _ T3) as N3. rewrite T2 in N3.
    destruct (setattr_total Node.set_left self (VObj l) s3 ltac:(lia)) as (s4 & E4 & L4 & T4).
    mstep (exact E4).
    destruct (Hcall s4 ltac:(rewrite T4; lia)) as (r & s5 & E5 & T5 & L5).
    mstep (exact E5).
    destruct (setattr_total Node.set_right self (VObj r) s5 ltac:(lia)) as (s6 & E6 & L6 & T6).
    rewrite E6. eexists. split; [reflexivity|]. split; [|lia].
    rewrite T6. etransitivity; [exact T5|]. rewrite T4.
    etransitivity; [exact T3|]. rewrite T2. now apply suffix_cons_r.
Qed.

Lemma build_total s :
  exists s', build s = Returned (length (heap s), s')
             /\ prefix_list s' `suffix_of` prefix_list s.
Proof.
  unfold build, BinOpAst. mstep reflexivity.
  destruct (BinOpAst_init_total (S (length (prefix_list s))) (length (heap s))
              (mk_state (heap s ++ [Node.bare]) (prefix_list s)))
    as (s' & E & Hsuf & _).
  - cbn [heap]. rewrite length_app. cbn. lia.
  - cbn [prefix_list]. lia.
  - mstep (exact E). eexists. split; [reflexivity | exact Hsuf].
Qed.

(** ** The budget does not change what a run does

    A run that ends within its budget (it returns, or it raises) ends the
    same way with any larger budget, so nothing proved below about an entry
    point depends on the budget it picks. *)

Lemma refines_refl {A} (r : outcome A) : refines r r.
Proof. now right. Qed.

Lemma refines_trans {A} (r1 r2 r3 : outcome A) :
  refines r1 r2 -> refines r2 r3 -> refines r1 r3.
Proof. intros [->| ->] [->| ->]; unfold refines; auto. Qed.

Lemma bind_mono {A B} (m1 m2 : M A) (f1 f2 : A -> M B) s :
  refines (m1 s) (m2 s) ->
  (forall x s', refines (f1 x s') (f2 x s')) ->
  refines ((m1 ≫= f1) s) ((m2 ≫= f2) s).
Proof.
  intros [H | H] Hf; unfold mbind, M_bind; rewrite H.
  - now left.
  - destruct (m2 s) as [[x s']| |]; [apply Hf | now right | now right].
Qed.

Ltac mono IH :=
  repeat first
    [ apply IH
    | apply refines_refl
    | apply bind_mono; [|intros ? ?]
    | match goal with
      | |- refines ((if ?b then _ else _) _) _ => destruct b
      | |- refines ((match ?t with number => _ | operator => _ end) _) _ => destruct t
      | |- refines (call ?v _ _) _ => destruct v; cbn [call]
      end ].

Lemma BinOpAst_init_step fuel :
  forall self s, refines (BinOpAst_init fuel self s) (BinOpAst_init (S fuel) self s).
Proof.
  induction fuel as [|fuel IH]; intros self s; [now left|].
  cbn [BinOpAst_init]. mono IH.
Qed.

Lemma prefix_str_step fuel :
  forall self s, refines (prefix_str fuel self s) (prefix_str (S fuel) self s).
Proof.
  induction fuel as [|fuel IH]; intros self s; [now left|].
  cbn [prefix_str]. mono IH.
Qed.

Lemma simplify_binops_step fuel :
  forall self s, refines (simplify_binops fuel self s) (simplify_binops (S fuel) self s).
Proof.
  induction fuel as [|fuel IH]; intros self s; [now left|].
  cbn [simplify_binops]. mono IH.
Qed.

Lemma budget_mono {A} (F : nat -> addr -> M A) :
  (forall fuel self s, refines (F fuel self s) (F (S fuel) self s)) ->
  forall n m self s, n <= m -> F n self s <> Stuck -> F m self s = F n self s.
Proof.
  intros Hstep n m self s Hle Hn.
  assert (H : refines (F n self s) (F m self s)).
  { induction Hle as [|m Hle IH]; [apply refines_refl|].
    eapply refines_trans; [exact IH | apply Hstep]. }
  destruct H as [H | H]; congruence.
Qed.

Lemma BinOpAst_init_budget n m self s :
  n <= m -> BinOpAst_init n self s <> Stuck ->
  BinOpAst_init m self s = BinOpAst_init n self s.
Proof. apply (budget_mono BinOpAst_init), BinOpAst_init_step. Qed.

Lemma prefix_str_budget n m self s :
  n <= m -> prefix_str n self s <> Stuck ->
  prefix_str m self s = prefix_str n self s.
Proof. apply (budget_mono prefix_str), prefix_str_step. Qed.

Lemma simplify_binops_budget n m self s :
  n <= m -> simplify_binops n self s <> Stuck ->
  simplify_binops m self s = simplify_binops n self s.
Proof. apply (budget_mono simplify_binops), simplify_binops_step. Qed.

(** ** A token list that ends before the second operand *)

Lemma BinOpAst_empty fuel h :
  BinOpAst (S fuel) (mk_state h [])
  = Returned (length h, mk_state (h ++ [Node.bare]) []).
Proof. reflexivity. Qed.

Lemma build_missing_right op e :
  Py.isnumeric op = false -> well_labelled e ->
  build (initial (op :: tokens e))
  = Returned (0, mk_state
                   (Node.mk (Some op) (Some operator)
                            (Some (VObj 1)) (Some (VObj (S (size e))))
                    :: layout 1 e ++ [Node.bare]) []).
Proof.
  intros Hop Hwl. unfold build, initial, BinOpAst.
  cbn [prefix_list length].
  mstep reflexivity. cbn [app length].
  assert (Hinit :
    BinOpAst_init (S (S (length (tokens e)))) 0 (mk_state [Node.bare] (op :: tokens e))
    = Returned (tt, mk_state
                   (Node.mk (Some op) (Some operator)
                            (Some (VObj 1)) (Some (VObj (S (size e))))
                    :: layout 1 e ++ [Node.bare]) [])).
  { rewrite BinOpAst_init_S.
    mstep reflexivity. mstep reflexivity.
    mstep (apply (setattr_mid Node.set_val [])).
    mstep (apply (getattr_mid Node.val []); reflexivity).
    rewrite Hop.
    mstep (apply (setattr_mid Node.set_type [])).
    rewrite <- (app_nil_r (tokens e)) at 2.
    mstep (apply BinOpAst_layout;
           [assumption | rewrite length_tokens; pose proof (height_le_size e); lia]).
    cbn [length app].
    mstep (apply (setattr_mid Node.set_left [])).
    mstep (apply BinOpAst_empty).
    cbn [length app]. rewrite length_layout.
    apply (setattr_mid Node.set_right []). }
  mstep (exact Hinit). reflexivity.
Qed.

Lemma prefix_str_bare fuel a s :
  heap s !! a = Some Node.bare ->
  prefix_str (S fuel) a s = Raised AttributeError.
Proof.
  intros H. cbn [prefix_str].
  apply bind_raised. now apply getattr_unset with Node.bare.
Qed.

Lemma simplify_binops_bare fuel a s :
  heap s !! a = Some Node.bare ->
  simplify_binops (S fuel) a s = Raised AttributeError.
Proof.
  intros H. cbn [simplify_binops].
  apply bind_raised. unfold getattr2.
  apply bind_raised. now apply getattr_unset with Node.bare.
Qed.

Lemma toPrefix_missing_right op e :
  toPrefix 0 (mk_state
                (Node.mk (Some op) (Some operator)
                         (Some (VObj 1)) (Some (VObj (S (size e))))
                 :: layout 1 e ++ [Node.bare]) [])
  = Raised AttributeError.
Proof.
  unfold toPrefix. set (s := mk_state _ _).
  assert (Hrepr : repr (heap s) 1 e).
  { apply (repr_app ([_] ++ layout 1 e) [Node.bare]).
    apply (repr_layout e [_]). }
  assert (Hlen : length (heap s) = S (S (size e))).
  { cbn. rewrite length_app, length_layout. cbn. lia. }
  assert (Hbare : heap s !! S (size e) = Some Node.bare).
  { subst s. cbn [heap]. rewrite app_comm_cons.
    apply list_lookup_middle. cbn [length]. now rewrite length_layout. }
  rewrite Hlen, prefix_str_S.
  mstep reflexivity. mstep reflexivity. mstep reflexivity.
  cbn [call].
  mstep (apply prefix_str_repr; [exact Hrepr | pose proof (height_le_size e); lia]).
  mstep reflexivity. cbn [call].
  apply bind_raised. now apply prefix_str_bare.
Qed.

(** ** Results on construction and serialization *)

(** C6, as the code has it: construction from a token list that ends where
    the second operand of an operator is expected does not fail.  For an
    operator token [op] followed by one well-formed expression [x] and
    nothing else, [build] returns; the token list is consumed; the root is an
    operator node whose left child holds [x] (it serializes to the tokens of
    [x]) and whose right child is an object with no attribute set; and the
    error appears only when the whole tree is serialized, as an
    [AttributeError]. *)
Theorem build_with_missing_operand_returns (op : string) (x : list string) :
  Py.isnumeric op = false ->
  wf_prefix x ->
  exists s,
    build (initial (op :: x)) = Returned (0, s)
    /\ prefix_list s = []
    /\ heap s !! 0 = Some (Node.mk (Some op) (Some operator)
                                   (Some (VObj 1)) (Some (VObj (S (length x)))))
    /\ toPrefix 1 s = Returned (Py.join " " x, s)
    /\ heap s !! S (length x) = Some Node.bare
    /\ toPrefix 0 s = Raised AttributeError.
Proof.
  intros Hop (e & Hwl & <-)%wf_prefix_expr.
  rewrite (build_missing_right op e Hop Hwl), length_tokens.
  eexists. split; [reflexivity|]. split; [reflexivity|]. split; [reflexivity|].
  split; [|split; [|apply toPrefix_missing_right]].
  - apply toPrefix_repr.
    + apply (repr_app ([_] ++ layout 1 e) [Node.bare]). apply (repr_layout e [_]).
    + cbn [heap length]. rewrite length_app, length_layout. lia.
  - cbn [heap]. rewrite app_comm_cons.
    apply list_lookup_middle. cbn [length]. now rewrite length_layout.
Qed.

Lemma build_with_missing_operand_returns_witness :
  Py.isnumeric "+" = false /\ wf_prefix ["3"] /\
  exists s,
    build (initial ["+"; "3"]) = Returned (0, s)
    /\ prefix_list s = []
    /\ heap s !! 0 = Some (Node.mk (Some "+") (Some operator)
                                   (Some (VObj 1)) (Some (VObj 2)))
    /\ toPrefix 1 s = Returned ("3", s)
    /\ heap s !! 2 = Some Node.bare
    /\ toPrefix 0 s = Raised AttributeError.
Proof.
  split; [reflexivity|]. split; [apply wf_number; reflexivity|].
  apply (build_with_missing_operand_returns "+" ["3"]);
    [reflexivity | apply wf_number; reflexivity].
Defined.

(** C6 as stated fails on its own example: building from ["+"; "3"] raises
    nothing. *)
Lemma build_missing_operand_not_raised :
  ~ exists e, result (build (initial ["+"; "3"])) = Raised e.
Proof. intros [e H]. vm_compute in H. discriminate. Qed.

(** On that tree the simplifier fails as the serializer does. *)
Example simplify_missing_operand :
  result ((AST ← build; simplify AST) (initial ["+"; "3"])) = Raised AttributeError.
Proof. reflexivity. Qed.

(** C7: prefix serialization inverts construction: for every well-formed
    token list, the tree built from it serializes to the tokens joined by
    single spaces. *)
Theorem prefix_str_inverts_build (l : list string) :
  wf_prefix l ->
  result ((AST ← build; toPrefix AST) (initial l)) = Returned (Py.join " " l).
Proof.
  intros (e & Hwl & <-)%wf_prefix_expr. now apply roundtrip.
Qed.

Lemma prefix_str_inverts_build_witness :
  wf_prefix ["+"; "0"; "*"; "1"; "4"] /\
  result ((AST ← build; toPrefix AST) (initial ["+"; "0"; "*"; "1"; "4"]))
  = Returned "+ 0 * 1 4".
Proof.
  assert (H : wf_prefix ["+"; "0"; "*"; "1"; "4"]).
  { apply (wf_operator "+" ["0"] ["*"; "1"; "4"]); [reflexivity | |].
    - apply wf_number. reflexivity.
    - apply (wf_operator "*" ["1"] ["4"]);
        [reflexivity | apply wf_number; reflexivity ..]. }
  split; [exact H|].
  apply (prefix_str_inverts_build ["+"; "0"; "*"; "1"; "4"] H).
Defined.

(** The case of a single numeric literal. *)
Lemma roundtrip_leaf n :
  Py.isnumeric n = true ->
  result ((AST ← build; toPrefix AST) (initial [n])) = Returned n.
Proof. intros Hn. apply (roundtrip (Num n) Hn). Qed.

(** [pop(0)] takes the token at the front and leaves the others in order. *)
Lemma pop0_front h tok toks :
  prefix_list_pop0 (mk_state h (tok :: toks)) = Returned (tok, mk_state h toks).
Proof. reflexivity. Qed.

(** Consumption in general: when the token list starts with a well-formed
    expression, [build] removes exactly that expression from the front and
    stores its tokens, in order, in the objects it allocates, in order. *)
Lemma build_consumes_prefix l h rest :
  wf_prefix l ->
  exists s,
    build (mk_state h (l ++ rest)) = Returned (length h, s)
    /\ prefix_list s = rest
    /\ Node.val <$> drop (length h) (heap s) = Some <$> l.
Proof.
  intros (e & Hwl & <-)%wf_prefix_expr.
  rewrite build_layout by assumption.
  eexists. split; [reflexivity|]. split; [reflexivity|].
  cbn [heap]. rewrite drop_app_length. apply val_layout.
Qed.

(** C8: construction consumes the token list destructively and completely:
    for a token list that is exactly a well-formed prefix expression, [build]
    returns with the token list empty, and the objects it allocated, in
    allocation order, hold the tokens of the list in their order: every
    token was popped from the front once and used for one node. *)
Theorem build_consumes_tokens (l : list string) :
  wf_prefix l ->
  exists s,
    build (initial l) = Returned (0, s)
    /\ prefix_list s = []
    /\ Node.val <$> heap s = Some <$> l.
Proof.
  intros Hwf.
  destruct (build_consumes_prefix l [] [] Hwf) as (s & Hb & Ht & Hv).
  rewrite app_nil_r in Hb. exists s. auto.
Qed.

Lemma build_consumes_tokens_witness :
  wf_prefix ["*"; "1"; "3"] /\
  exists s,
    build (initial ["*"; "1"; "3"]) = Returned (0, s)
    /\ prefix_list s = []
    /\ Node.val <$> heap s = Some <$> ["*"; "1"; "3"].
Proof.
  assert (H : wf_prefix ["*"; "1"; "3"]).
  { apply (wf_operator "*" ["1"] ["3"]);
      [reflexivity | apply wf_number; reflexivity ..]. }
  split; [exact H|]. apply (build_consumes_tokens ["*"; "1"; "3"] H).
Defined.

(** C9: constructing a node from an empty token list raises nothing: the
    constructor returns a new object with none of [val], [type], [left],
    [right] set, whatever the store was; serializing or simplifying that
    object is what raises, an [AttributeError]. *)
Theorem build_empty_returns_bare_object (h : list Node.t) :
  build (mk_state h []) = Returned (length h, mk_state (h ++ [Node.bare]) [])
  /\ toPrefix (length h) (mk_state (h ++ [Node.bare]) []) = Raised AttributeError
  /\ simplify (length h) (mk_state (h ++ [Node.bare]) []) = Raised AttributeError.
Proof.
  split; [reflexivity|]. split.
  - apply prefix_str_bare. cbn [heap]. now apply list_lookup_middle.
  - apply simplify_binops_bare. cbn [heap]. now apply list_lookup_middle.
Qed.

(** ** The identity rules on a node of the store *)

Lemma getattr2_at {A} f (g : Node.t -> option A) self s o c oc x :
  heap s !! self = Some o -> f o = Some (VObj c) ->
  heap s !! c = Some oc -> g oc = Some x ->
  getattr2 f g self s = Returned (x, s).
Proof.
  intros Ho Hf Hc Hg. unfold getattr2.
  mstep (apply getattr_at with (o := o); eassumption).
  now apply getattr_at with (o := oc).
Qed.

Lemma numeric_and_equals_at f self k s o c oc t :
  heap s !! self = Some o -> f o = Some (VObj c) ->
  heap s !! c = Some oc -> Node.val oc = Some t ->
  numeric_and_equals f self k s
  = if Py.isnumeric t then
      match Py.int t with
      | Returned n => Returned ((n =? k)%Z, s)
      | Raised e => Raised e
      | Stuck => Stuck
      end
    else Returned (false, s).
Proof.
  intros Ho Hf Hc Ht. unfold numeric_and_equals.
  mstep (apply getattr2_at with (o := o) (c := c) (oc := oc); eassumption).
  destruct (Py.isnumeric t); cbv beta iota; [|reflexivity].
  mstep (apply getattr2_at with (o := o) (c := c) (oc := oc); eassumption).
  unfold mbind, M_bind, lift. destruct (Py.int t); reflexivity.
Qed.

Lemma numeric_and_equals_true f self k s o c oc t :
  heap s !! self = Some o -> f o = Some (VObj c) ->
  heap s !! c = Some oc -> Node.val oc = Some t ->
  is_literal k t ->
  numeric_and_equals f self k s = Returned (true, s).
Proof.
  intros Ho Hf Hc Ht [Hn Hi].
  rewrite (numeric_and_equals_at f self k s o c oc t) by assumption.
  now rewrite Hn, Hi, Z.eqb_refl.
Qed.

Lemma numeric_and_equals_false f self k s o c oc t :
  heap s !! self = Some o -> f o = Some (VObj c) ->
  heap s !! c = Some oc -> Node.val oc = Some t ->
  not_literal k t ->
  numeric_and_equals f self k s = Returned (false, s).
Proof.
  intros Ho Hf Hc Ht Hnot.
  rewrite (numeric_and_equals_at f self k s o c oc t) by assumption.
  destruct Hnot as [Hn | (m & Hi & Hm)].
  - now rewrite Hn.
  - rewrite Hi. apply Z.eqb_neq in Hm. rewrite Hm.
    now destruct (Py.isnumeric t).
Qed.

(** Reads and writes on a store whose object at [self] has just been
    written. *)
Lemma setattr_ins {A} (set : A -> Node.t -> Node.t) self x h o toks :
  self < length h ->
  setattr set self x (mk_state (<[self := o]> h) toks)
  = Returned (tt, mk_state (<[self := set x o]> h) toks).
Proof.
  intros Hlt.
  rewrite setattr_at with (o := o)
    by (cbn [heap]; now apply list_lookup_insert_eq).
  cbn [heap prefix_list]. now rewrite list_insert_insert_eq.
Qed.

Lemma getattr_ins {A} (name : Node.t -> option A) self x h o toks :
  self < length h -> name o = Some x ->
  getattr name (VObj self) (mk_state (<[self := o]> h) toks)
  = Returned (x, mk_state (<[self := o]> h) toks).
Proof.
  intros Hlt Hx. apply getattr_at with o; [|exact Hx].
  cbn [heap]. now apply list_lookup_insert_eq.
Qed.

Lemma getattr2_ins {A} f (g : Node.t -> option A) self h o toks c oc x :
  self < length h -> f o = Some (VObj c) -> c <> self ->
  h !! c = Some oc -> g oc = Some x ->
  getattr2 f g self (mk_state (<[self := o]> h) toks)
  = Returned (x, mk_state (<[self := o]> h) toks).
Proof.
  intros Hlt Hf Hne Hc Hg.
  apply getattr2_at with (o := o) (c := c) (oc := oc); try assumption.
  - cbn [heap]. now apply list_lookup_insert_eq.
  - cbn [heap]. rewrite list_lookup_insert_ne by congruence. exact Hc.
Qed.

(** The three ways an identity rule rewrites a node.  The two rules have the
    same text up to the operator symbol and the constant, so one script
    proves each statement for both. *)

Ltac rule_fires_left Ho Hv Hl Hr Hol Hz Hlit Hne Hor :=
  pose proof (lookup_lt_Some _ _ _ Ho) as Hlt;
  mstep (eapply getattr_at; [exact Ho | exact Hv]);
  cbn [String.eqb Ascii.eqb Bool.eqb];
  mstep (eapply numeric_and_equals_true; [exact Ho | exact Hl | exact Hol | exact Hz | exact Hlit]);
  mstep (eapply getattr2_at; [exact Ho | exact Hr | exact Hor | reflexivity]);
  mstep (eapply setattr_at; exact Ho);
  mstep (eapply getattr2_ins; [exact Hlt | exact Hr | exact Hne | exact Hor | reflexivity]);
  mstep (eapply setattr_ins; exact Hlt);
  mstep (eapply getattr2_ins; [exact Hlt | exact Hr | exact Hne | exact Hor | reflexivity]);
  cbn [Node.type];
  match goal with |- context [decide (?t = operator)] => destruct (decide (t = operator)) end;
  [ mstep (eapply getattr2_ins; [exact Hlt | exact Hr | exact Hne | exact Hor | reflexivity]);
    mstep (eapply setattr_ins; exact Hlt);
    mstep (eapply getattr2_ins; [exact Hlt | exact Hr | exact Hne | exact Hor | reflexivity]);
    rewrite setattr_ins by exact Hlt; reflexivity
  | mstep (eapply setattr_ins; exact Hlt);
    rewrite setattr_ins by exact Hlt; reflexivity ].

Lemma additive_identity_left h toks self o l ol r z v t a b :
  h !! self = Some o -> Node.val o = Some "+" ->
  Node.left o = Some (VObj l) -> Node.right o = Some (VObj r) ->
  h !! l = Some ol -> Node.val ol = Some z -> is_literal 0 z ->
  r <> self ->
  h !! r = Some (Node.mk (Some v) (Some t) (Some a) (Some b)) ->
  additive_identity self (mk_state h toks)
  = Returned (tt, mk_state
       (<[self := if decide (t = operator)
                  then Node.mk (Some v) (Some t) (Some a) (Some b)
                  else Node.mk (Some v) (Some t) (Some VFalse) (Some VFalse)]> h)
       toks).
Proof.
  intros Ho Hv Hl Hr Hol Hz Hlit Hne Hor. unfold additive_identity.
  rule_fires_left Ho Hv Hl Hr Hol Hz Hlit Hne Hor.
Qed.

Lemma multiplicative_identity_left h toks self o l ol r z v t a b :
  h !! self = Some o -> Node.val o = Some "*" ->
  Node.left o = Some (VObj l) -> Node.right o = Some (VObj r) ->
  h !! l = Some ol -> Node.val ol = Some z -> is_literal 1 z ->
  r <> self ->
  h !! r = Some (Node.mk (Some v) (Some t) (Some a) (Some b)) ->
  multiplicative_identity self (mk_state h toks)
  = Returned (tt, mk_state
       (<[self := if decide (t = operator)
                  then Node.mk (Some v) (Some t) (Some a) (Some b)
                  else Node.mk (Some v) (Some t) (Some VFalse) (Some VFalse)]> h)
       toks).
Proof.
  intros Ho Hv Hl Hr Hol Hz Hlit Hne Hor. unfold multiplicative_identity.
  rule_fires_left Ho Hv Hl Hr Hol Hz Hlit Hne Hor.
Qed.

Ltac rule_reaches_right Hlt Ho Hv Hl Hr Hol Hnot Hne Hor Hz Hlit :=
  mstep (eapply getattr_at; [exact Ho | exact Hv]);
  cbn [String.eqb Ascii.eqb Bool.eqb];
  mstep (eapply numeric_and_equals_false; [exact Ho | exact Hl | exact Hol | reflexivity | exact Hnot]);
  mstep (eapply numeric_and_equals_true; [exact Ho | exact Hr | exact Hor | exact Hz | exact Hlit]);
  mstep (eapply getattr2_at; [exact Ho | exact Hl | exact Hol | reflexivity]);
  mstep (eapply setattr_at; exact Ho);
  mstep (eapply getattr2_ins; [exact Hlt | exact Hl | exact Hne | exact Hol | reflexivity]);
  mstep (eapply setattr_ins; exact Hlt);
  mstep (eapply getattr2_ins; [exact Hlt | exact Hl | exact Hne | exact Hol | reflexivity]);
  cbn [Node.type].

Ltac rule_right_number Hlt Ho Hv Hl Hr Hol Hnot Hne Hor Hz Hlit :=
  rule_reaches_right Hlt Ho Hv Hl Hr Hol Hnot Hne Hor Hz Hlit;
  match goal with
  | |- context [decide (?t = operator)] =>
      destruct (decide (t = operator)); try (exfalso; congruence)
  end;
  mstep (eapply setattr_ins; exact Hlt);
  rewrite setattr_ins by exact Hlt; reflexivity.

Ltac rule_right_operator Hlt Ho Hv Hl Hr Hol Hnot Hne Hor Hz Hlit Hne' Hoa Hc :=
  rule_reaches_right Hlt Ho Hv Hl Hr Hol Hnot Hne Hor Hz Hlit;
  match goal with
  | |- context [decide (?t = operator)] =>
      destruct (decide (t = operator)); try (exfalso; congruence)
  end;
  mstep (eapply getattr2_ins; [exact Hlt | exact Hl | exact Hne | exact Hol | reflexivity]);
  mstep (eapply setattr_ins; exact Hlt);
  mstep (eapply getattr2_ins; [exact Hlt | reflexivity | exact Hne' | exact Hoa | exact Hc]);
  rewrite setattr_ins by exact Hlt; reflexivity.

(** Right operand is the identity literal, left operand is a number: the
    node becomes that number. *)
Lemma additive_identity_right_number h toks self o l r lv la lb or z :
  h !! self = Some o -> Node.val o = Some "+" ->
  Node.left o = Some (VObj l) -> Node.right o = Some (VObj r) ->
  h !! l = Some (Node.mk (Some lv) (Some number) (Some la) (Some lb)) ->
  not_literal 0 lv -> l <> self ->
  h !! r = Some or -> Node.val or = Some z -> is_literal 0 z ->
  additive_identity self (mk_state h toks)
  = Returned (tt, mk_state
       (<[self := Node.mk (Some lv) (Some number) (Some VFalse) (Some VFalse)]> h)
       toks).
Proof.
  intros Ho Hv Hl Hr Hol Hnot Hne Hor Hz Hlit. unfold additive_identity.
  pose proof (lookup_lt_Some _ _ _ Ho) as Hlt.
  rule_right_number Hlt Ho Hv Hl Hr Hol Hnot Hne Hor Hz Hlit.
Qed.

Lemma multiplicative_identity_right_number h toks self o l r lv la lb or z :
  h !! self = Some o -> Node.val o = Some "*" ->
  Node.left o = Some (VObj l) -> Node.right o = Some (VObj r) ->
  h !! l = Some (Node.mk (Some lv) (Some number) (Some la) (Some lb)) ->
  not_literal 1 lv -> l <> self ->
  h !! r = Some or -> Node.val or = Some z -> is_literal 1 z ->
  multiplicative_identity self (mk_state h toks)
  = Returned (tt, mk_state
       (<[self := Node.mk (Some lv) (Some number) (Some VFalse) (Some VFalse)]> h)
       toks).
Proof.
  intros Ho Hv Hl Hr Hol Hnot Hne Hor Hz Hlit. unfold multiplicative_identity.
  pose proof (lookup_lt_Some _ _ _ Ho) as Hlt.
  rule_right_number Hlt Ho Hv Hl Hr Hol Hnot Hne Hor Hz Hlit.
Qed.

(** Right operand is the identity literal, left operand is an operator node
    with children [a] and [lb].  The source assigns [self.left =
    self.left.left] and then [self.right = self.left.right]; the second
    assignment reads the new [self.left], so the node gets the right
    attribute of [a], not [lb]. *)
Lemma additive_identity_right_operator h toks self o l r lv a lb or z oa c :
  h !! self = Some o -> Node.val o = Some "+" ->
  Node.left o = Some (VObj l) -> Node.right o = Some (VObj r) ->
  h !! l = Some (Node.mk (Some lv) (Some operator) (Some (VObj a)) (Some lb)) ->
  not_literal 0 lv -> l <> self ->
  h !! r = Some or -> Node.val or = Some z -> is_literal 0 z ->
  a <> self -> h !! a = Some oa -> Node.right oa = Some c ->
  additive_identity self (mk_state h toks)
  = Returned (tt, mk_state
       (<[self := Node.mk (Some lv) (Some operator) (Some (VObj a)) (Some c)]> h)
       toks).
Proof.
  intros Ho Hv Hl Hr Hol Hnot Hne Hor Hz Hlit Hne' Hoa Hc. unfold additive_identity.
  pose proof (lookup_lt_Some _ _ _ Ho) as Hlt.
  rule_right_operator Hlt Ho Hv Hl Hr Hol Hnot Hne Hor Hz Hlit Hne' Hoa Hc.
Qed.

Lemma multiplicative_identity_right_operator h toks self o l r lv a lb or z oa c :
  h !! self = Some o -> Node.val o = Some "*" ->
  Node.left o = Some (VObj l) -> Node.right o = Some (VObj r) ->
  h !! l = Some (Node.mk (Some lv) (Some operator) (Some (VObj a)) (Some lb)) ->
  not_literal 1 lv -> l <> self ->
  h !! r = Some or -> Node.val or = Some z -> is_literal 1 z ->
  a <> self -> h !! a = Some oa -> Node.right oa = Some c ->
  multiplicative_identity self (mk_state h toks)
  = Returned (tt, mk_state
       (<[self := Node.mk (Some lv) (Some operator) (Some (VObj a)) (Some c)]> h)
       toks).
Proof.
  intros Ho Hv Hl Hr Hol Hnot Hne Hor Hz Hlit Hne' Hoa Hc. unfold multiplicative_identity.
  pose proof (lookup_lt_Some _ _ _ Ho) as Hlt.
  rule_right_operator Hlt Ho Hv Hl Hr Hol Hnot Hne Hor Hz Hlit Hne' Hoa Hc.
Qed.

(** A rule leaves a node alone when its value is not the rule's operator. *)
Lemma additive_identity_other h toks self o v :
  h !! self = Some o -> Node.val o = Some v -> v <> "+" ->
  additive_identity self (mk_state h toks) = Returned (tt, mk_state h toks).
Proof.
  intros Ho Hv Hne. unfold additive_identity.
  mstep (eapply getattr_at; [exact Ho | exact Hv]).
  apply String.eqb_neq in Hne. now rewrite Hne.
Qed.

Lemma multiplicative_identity_other h toks self o v :
  h !! self = Some o -> Node.val o = Some v -> v <> "*" ->
  multiplicative_identity self (mk_state h toks) = Returned (tt, mk_state h toks).
Proof.
  intros Ho Hv Hne. unfold multiplicative_identity.
  mstep (eapply getattr_at; [exact Ho | exact Hv]).
  apply String.eqb_neq in Hne. now rewrite Hne.
Qed.

(** ** One operator applied to two numbers *)

Lemma isnumeric_not_operator n :
  Py.isnumeric n = true -> n <> "+" /\ n <> "*".
Proof. intros H. split; intros ->; discriminate H. Qed.

Lemma decide_number_operator {A} (x y : A) :
  (if decide (number = operator) then x else y) = y.
Proof. destruct (decide (number = operator)); [discriminate | reflexivity]. Qed.

Lemma build_op_numbers op a b :
  Py.isnumeric op = false -> Py.isnumeric a = true -> Py.isnumeric b = true ->
  build (initial [op; a; b]) = Returned (0, mk_state (store3 op a b) []).
Proof.
  intros Hop Ha Hb.
  apply (build_layout (Bin op (Num a) (Num b)) [] []).
  cbn [well_labelled]. auto.
Qed.

Lemma simplify_op_numbers op a b :
  simplify 0 (mk_state (store3 op a b) [])
  = (additive_identity 0;; multiplicative_identity 0) (mk_state (store3 op a b) []).
Proof.
  unfold simplify. cbn [heap store3 length]. rewrite simplify_binops_S.
  mstep reflexivity. rewrite decide_number_operator.
  mstep reflexivity.
  mstep reflexivity. rewrite decide_number_operator.
  mstep reflexivity.
  reflexivity.
Qed.

(** The whole run on [op a b] when the rule for [op] turns the root into the
    number [n]. *)
Lemma run_op_numbers op a b n :
  Py.isnumeric op = false -> Py.isnumeric a = true -> Py.isnumeric b = true ->
  Py.isnumeric n = true ->
  (additive_identity 0;; multiplicative_identity 0) (mk_state (store3 op a b) [])
  = Returned (tt, mk_state (<[0 := leaf n]> (store3 op a b)) []) ->
  run [op; a; b] = Returned n.
Proof.
  intros Hop Ha Hb Hn Hrules. unfold run, run_line.
  mstep (apply build_op_numbers; assumption).
  mstep (rewrite simplify_op_numbers; exact Hrules).
  unfold toPrefix. cbn [heap store3 length]. rewrite prefix_str_S.
  mstep reflexivity. reflexivity.
Qed.

Lemma run_add_left z n :
  is_literal 0 z -> Py.isnumeric n = true -> run ["+"; z; n] = Returned n.
Proof.
  intros Hz Hn. pose proof Hz as [Hz1 _].
  destruct (isnumeric_not_operator n Hn) as [_ Hmul].
  apply run_op_numbers; [reflexivity | assumption ..|].
  mstep (eapply (additive_identity_left (store3 "+" z n) [] 0 _ 1 _ 2 z n number VFalse VFalse);
         [reflexivity | reflexivity | reflexivity | reflexivity | reflexivity
         | reflexivity | exact Hz | discriminate | reflexivity]).
  rewrite decide_number_operator.
  eapply multiplicative_identity_other; [reflexivity | reflexivity | exact Hmul].
Qed.

Lemma run_mul_left u n :
  is_literal 1 u -> Py.isnumeric n = true -> run ["*"; u; n] = Returned n.
Proof.
  intros Hu Hn. pose proof Hu as [Hu1 _].
  destruct (isnumeric_not_operator n Hn) as [_ Hmul].
  apply run_op_numbers; [reflexivity | assumption ..|].
  mstep (eapply additive_identity_other; [reflexivity | reflexivity | discriminate]).
  etransitivity;
    [eapply (multiplicative_identity_left (store3 "*" u n) [] 0 _ 1 _ 2 u n number VFalse VFalse);
     [reflexivity | reflexivity | reflexivity | reflexivity | reflexivity
     | reflexivity | exact Hu | discriminate | reflexivity]|].
  now rewrite decide_number_operator.
Qed.

Lemma run_add_right z m :
  is_literal 0 z -> Py.isnumeric m = true -> not_literal 0 m ->
  run ["+"; m; z] = Returned m.
Proof.
  intros Hz Hm Hnot. pose proof Hz as [Hz1 _].
  destruct (isnumeric_not_operator m Hm) as [_ Hmul].
  apply run_op_numbers; [reflexivity | assumption ..|].
  mstep (eapply (additive_identity_right_number (store3 "+" m z) [] 0 _ 1 2 m VFalse VFalse _ z);
         [reflexivity | reflexivity | reflexivity | reflexivity | reflexivity
         | exact Hnot | discriminate | reflexivity | reflexivity | exact Hz]).
  eapply multiplicative_identity_other; [reflexivity | reflexivity | exact Hmul].
Qed.

Lemma run_mul_right u m :
  is_literal 1 u -> Py.isnumeric m = true -> not_literal 1 m ->
  run ["*"; m; u] = Returned m.
Proof.
  intros Hu Hm Hnot. pose proof Hu as [Hu1 _].
  apply run_op_numbers; [reflexivity | assumption ..|].
  mstep (eapply additive_identity_other; [reflexivity | reflexivity | discriminate]).
  eapply (multiplicative_identity_right_number (store3 "*" m u) [] 0 _ 1 2 m VFalse VFalse _ u);
    [reflexivity | reflexivity | reflexivity | reflexivity | reflexivity
    | exact Hnot | discriminate | reflexivity | reflexivity | exact Hu].
Qed.

(** C10: the identity rules test an operand with [isnumeric] and then
    compare its integer value, not its text.  Any number [z] whose text
    parses to 0 (alone or with leading zeros) makes the additive rule fire,
    as left or as right operand, and any number [u] whose text parses to 1
    makes the multiplicative rule fire: the other operand is what remains. *)
Theorem identity_rules_compare_integer_values (z u n m : string) :
  is_literal 0 z ->
  is_literal 1 u ->
  Py.isnumeric n = true ->
  Py.isnumeric m = true -> not_literal 0 m -> not_literal 1 m ->
  run ["+"; z; n] = Returned n
  /\ run ["*"; u; n] = Returned n
  /\ run ["+"; m; z] = Returned m
  /\ run ["*"; m; u] = Returned m.
Proof.
  intros Hz Hu Hn Hm Hm0 Hm1.
  split; [now apply run_add_left|].
  split; [now apply run_mul_left|].
  split; [now apply run_add_right | now apply run_mul_right].
Qed.

Lemma identity_rules_compare_integer_values_witness :
  run ["+"; "00"; "5"] = Returned "5"
  /\ run ["*"; "01"; "5"] = Returned "5"
  /\ run ["+"; "7"; "00"] = Returned "7"
  /\ run ["*"; "7"; "01"] = Returned "7".
Proof.
  apply (identity_rules_compare_integer_values "00" "01" "5" "7").
  - split; reflexivity.
  - split; reflexivity.
  - reflexivity.
  - reflexivity.
  - right. exists 7%Z. split; [reflexivity | lia].
  - right. exists 7%Z. split; [reflexivity | lia].
Defined.

(** ** Runs on which the simplifier departs from the specification *)

(** Well-formedness of a concrete token list, from its expression. *)
Ltac wf_by e :=
  apply (expr_wf_prefix e); cbn [well_labelled]; repeat split; reflexivity.

(** C1, at the input [+ + + 1 2 3 0]: the operand [x = + + 1 2 3] simplifies
    to itself, but [x + 0], with the zero as right operand, simplifies to
    [+ + 1 2 2]: the rule keeps the left child of [x] and takes the right
    child of that child in place of the right child of [x]. *)
Theorem additive_identity_right_zero_changes_operand :
  wf_prefix ["+"; "+"; "1"; "2"; "3"]
  /\ run ("+" :: ["+"; "+"; "1"; "2"; "3"] ++ ["0"]) = Returned "+ + 1 2 2"
  /\ run ["+"; "+"; "1"; "2"; "3"] = Returned "+ + 1 2 3".
Proof.
  split; [wf_by (Bin "+" (Bin "+" (Num "1") (Num "2")) (Num "3"))|].
  split; vm_compute; reflexivity.
Qed.

(** The same defect when the left child of the operand is a number: the
    rewritten node keeps an operator type with [False] as right child, and
    serialization raises. *)
Example additive_identity_right_zero_raises :
  run ("+" :: ["+"; "3"; "5"] ++ ["0"]) = Raised AttributeError
  /\ run ["+"; "3"; "5"] = Returned "+ 3 5".
Proof. split; vm_compute; reflexivity. Qed.

(** With the zero as left operand the rule works on this operand. *)
Example additive_identity_left_zero_example :
  run ("+" :: "0" :: ["+"; "+"; "1"; "2"; "3"]) = Returned "+ + 1 2 3".
Proof. vm_compute. reflexivity. Qed.

(** C2, at the input [* * * 2 3 4 1]: the operand [x = * * 2 3 4] simplifies
    to itself, but [x * 1] simplifies to [* * 2 3 3]. *)
Theorem multiplicative_identity_right_one_changes_operand :
  wf_prefix ["*"; "*"; "2"; "3"; "4"]
  /\ run ("*" :: ["*"; "*"; "2"; "3"; "4"] ++ ["1"]) = Returned "* * 2 3 3"
  /\ run ["*"; "*"; "2"; "3"; "4"] = Returned "* * 2 3 4".
Proof.
  split; [wf_by (Bin "*" (Bin "*" (Num "2") (Num "3")) (Num "4"))|].
  split; vm_compute; reflexivity.
Qed.

Example multiplicative_identity_right_one_raises :
  run ("*" :: ["*"; "3"; "5"] ++ ["1"]) = Raised AttributeError
  /\ run ["*"; "3"; "5"] = Returned "* 3 5".
Proof. split; vm_compute; reflexivity. Qed.

Example multiplicative_identity_left_one_example :
  run ("*" :: "1" :: ["*"; "*"; "2"; "3"; "4"]) = Returned "* * 2 3 4".
Proof. vm_compute. reflexivity. Qed.

(** C3, at the input [+ + 3 5 0]: the tree is built from a well-formed token
    list, simplification returns, and the root is then an operator node
    whose right child is [False]: the invariant is broken. *)
Theorem simplify_breaks_operator_invariant :
  wf_prefix ["+"; "+"; "3"; "5"; "0"]
  /\ exists s,
       (AST ← build; simplify AST;; mret AST) (initial ["+"; "+"; "3"; "5"; "0"])
       = Returned (0, s)
       /\ heap s !! 0 = Some (Node.mk (Some "+") (Some operator)
                                      (Some (VObj 2)) (Some VFalse))
       /\ ~ well_shaped (heap s) 0.
Proof.
  split; [wf_by (Bin "+" (Bin "+" (Num "3") (Num "5")) (Num "0"))|].
  match goal with |- exists s, ?run = _ /\ _ => set (r := run) end.
  vm_compute in r. subst r.
  eexists. split; [reflexivity|]. split; [reflexivity|].
  intros H. inversion H as [a o Ho Ht Hl Hr | a o l r Ho Ht Hl Hr Hwl Hwr];
    cbn in Ho; injection Ho as <-; discriminate.
Qed.

(** C4, at the input [* + * + 1 2 0 9 1]: both runs return, and the second
    simplification rewrites the tree again.  The first pass turns the root
    into [+] over [* + 1 2 0] and the number 0 (which the root now shares
    with its left child); the second pass finds that zero as right operand
    of the root.  At the input [+ 0 5] one simplification gives the number
    5, and a second simplification of that tree raises, since a number has
    [False] as children and [simplify_binops] reads [self.left.type]
    first. *)
Theorem simplify_twice_differs :
  wf_prefix ["*"; "+"; "*"; "+"; "1"; "2"; "0"; "9"; "1"]
  /\ result ((AST ← build; simplify AST;; toPrefix AST)
               (initial ["*"; "+"; "*"; "+"; "1"; "2"; "0"; "9"; "1"]))
     = Returned "+ * + 1 2 0 0"
  /\ result ((AST ← build; simplify AST;; simplify AST;; toPrefix AST)
               (initial ["*"; "+"; "*"; "+"; "1"; "2"; "0"; "9"; "1"]))
     = Returned "* + 1 2 2"
  /\ wf_prefix ["+"; "0"; "5"]
  /\ result ((AST ← build; simplify AST;; toPrefix AST) (initial ["+"; "0"; "5"]))
     = Returned "5"
  /\ result ((AST ← build; simplify AST;; simplify AST) (initial ["+"; "0"; "5"]))
     = Raised AttributeError.
Proof.
  split; [wf_by (Bin "*" (Bin "+" (Bin "*" (Bin "+" (Num "1") (Num "2")) (Num "0"))
                                  (Num "9")) (Num "1"))|].
  split; [vm_compute; reflexivity|]. split; [vm_compute; reflexivity|].
  split; [wf_by (Bin "+" (Num "0") (Num "5"))|].
  split; vm_compute; reflexivity.
Qed.

(** C5, at the inputs [5] and [+ * 3 5 0]: simplification raises on a tree
    that is a single number, and on a tree where the additive rule has just
    left an operator [*] with [False] as right child for the multiplicative
    rule to inspect. *)
Theorem simplify_raises_on_well_formed_trees :
  wf_prefix ["5"]
  /\ result ((AST ← build; simplify AST) (initial ["5"])) = Raised AttributeError
  /\ wf_prefix ["+"; "*"; "3"; "5"; "0"]
  /\ result ((AST ← build; simplify AST) (initial ["+"; "*"; "3"; "5"; "0"]))
     = Raised AttributeError.
Proof.
  split; [wf_by (Num "5")|]. split; [vm_compute; reflexivity|].
  split; [wf_by (Bin "+" (Bin "*" (Num "3") (Num "5")) (Num "0"))|].
  vm_compute. reflexivity.
Qed.

(** ** The simplifier computes [simp] when the slip is not met *)

Ltac rule_fires_none Hlt Ho Hv Hl Hr Hol Hlv Hnl Hor Hrv Hnr :=
  mstep (eapply getattr_at; [exact Ho | exact Hv]);
  cbn [String.eqb Ascii.eqb Bool.eqb];
  mstep (eapply numeric_and_equals_false; [exact Ho | exact Hl | exact Hol | exact Hlv | exact Hnl]);
  mstep (eapply numeric_and_equals_false; [exact Ho | exact Hr | exact Hor | exact Hrv | exact Hnr]);
  reflexivity.

Lemma additive_identity_none h toks self o l ol r or lv rv :
  h !! self = Some o -> Node.val o = Some "+" ->
  Node.left o = Some (VObj l) -> Node.right o = Some (VObj r) ->
  h !! l = Some ol -> Node.val ol = Some lv -> not_literal 0 lv ->
  h !! r = Some or -> Node.val or = Some rv -> not_literal 0 rv ->
  additive_identity self (mk_state h toks) = Returned (tt, mk_state h toks).
Proof.
  intros Ho Hv Hl Hr Hol Hlv Hnl Hor Hrv Hnr. unfold additive_identity.
  pose proof (lookup_lt_Some _ _ _ Ho) as Hlt.
  rule_fires_none Hlt Ho Hv Hl Hr Hol Hlv Hnl Hor Hrv Hnr.
Qed.

Lemma multiplicative_identity_none h toks self o l ol r or lv rv :
  h !! self = Some o -> Node.val o = Some "*" ->
  Node.left o = Some (VObj l) -> Node.right o = Some (VObj r) ->
  h !! l = Some ol -> Node.val ol = Some lv -> not_literal 1 lv ->
  h !! r = Some or -> Node.val or = Some rv -> not_literal 1 rv ->
  multiplicative_identity self (mk_state h toks) = Returned (tt, mk_state h toks).
Proof.
  intros Ho Hv Hl Hr Hol Hlv Hnl Hor Hrv Hnr. unfold multiplicative_identity.
  pose proof (lookup_lt_Some _ _ _ Ho) as Hlt.
  rule_fires_none Hlt Ho Hv Hl Hr Hol Hlv Hnl Hor Hrv Hnr.
Qed.

Lemma decimal_isnumeric t : decimal t = true -> Py.isnumeric t = true.
Proof.
  assert (H : forall s, Py.all_chars Py.is_decimal_char s = true ->
                        Py.all_chars Py.is_numeric_char s = true).
  { induction s as [|c s IH]; [reflexivity|]. cbn [Py.all_chars].
    intros [Hc Hs]%andb_prop. rewrite (IH Hs), andb_true_r.
    unfold Py.is_numeric_char. now rewrite Hc. }
  destruct t; [discriminate|]. apply H.
Qed.

Lemma decimal_int t : decimal t = true -> Py.int t = Returned (Py.decimal_value 0 t).
Proof. destruct t; [discriminate|]. unfold decimal, Py.int. now intros ->. Qed.

Lemma plain_well_labelled e : plain e -> well_labelled e.
Proof.
  induction e as [n | op l IHl r IHr]; cbn [plain well_labelled].
  - apply decimal_isnumeric.
  - intros (Hop & Hl & Hr). auto.
Qed.

Lemma lit_true k e : plain e -> lit k e = true -> exists z, e = Num z /\ is_literal k z.
Proof.
  destruct e as [t|]; [|discriminate]. cbn [plain lit]. intros Hd H.
  exists t. split; [reflexivity|].
  rewrite (decimal_int t Hd) in H. apply andb_prop in H as [Hn Hk].
  apply Z.eqb_eq in Hk. subst k. split; [assumption | now apply decimal_int].
Qed.

Lemma lit_false k e : plain e -> lit k e = false -> not_literal k (root_val e).
Proof.
  destruct e as [t|op l r]; cbn [plain lit root_val].
  - intros Hd H. right. rewrite (decimal_int t Hd) in H.
    rewrite (decimal_isnumeric t Hd) in H. cbn in H. rewrite (decimal_int t Hd).
    exists (Py.decimal_value 0 t). split; [reflexivity|]. now apply Z.eqb_neq.
  - intros (Hop & _) _. now left.
Qed.

Lemma within_range e : forall lo hi h a, within lo hi h a e -> lo <= a < hi.
Proof. destruct e; cbn [within]; intros lo hi h a H; [tauto|]. destruct H as (? & ? & ? & ? & _). assumption. Qed.

Lemma within_weaken e :
  forall lo hi lo' hi' h a,
    within lo hi h a e -> lo' <= lo -> hi <= hi' -> within lo' hi' h a e.
Proof.
  induction e as [n | op l IHl r IHr]; intros lo hi lo' hi' h a; cbn [within].
  - intros [Hr Ha] Hlo Hhi. split; [lia | assumption].
  - intros (al & ar & m & Hr & Ha & Hl & Hrr) Hlo Hhi.
    exists al, ar, m. split; [lia|]. split; [assumption|]. split; [assumption|].
    eapply IHr; [exact Hrr | lia | lia].
Qed.

Lemma within_frame e :
  forall lo hi h h' a,
    within lo hi h a e ->
    (forall b, lo <= b < hi -> h' !! b = h !! b) ->
    within lo hi h' a e.
Proof.
  induction e as [n | op l IHl r IHr]; intros lo hi h h' a; cbn [within].
  - intros [Hr Ha] Hfr. split; [assumption|]. now rewrite Hfr.
  - intros (al & ar & m & Hr & Ha & Hl & Hrr) Hfr.
    pose proof (within_range _ _ _ _ _ Hl) as Rl.
    pose proof (within_range _ _ _ _ _ Hrr) as Rr.
    exists al, ar, m. split; [assumption|]. split; [now rewrite Hfr|]. split.
    + eapply IHl; [exact Hl|]. intros b Hb. apply Hfr. lia.
    + eapply IHr; [exact Hrr|]. intros b Hb. apply Hfr. lia.
Qed.

Lemma within_repr e : forall lo hi h a, within lo hi h a e -> repr h a e.
Proof.
  induction e as [n | op l IHl r IHr]; intros lo hi h a; cbn [within repr].
  - now intros [_ H].
  - intros (al & ar & m & _ & Ha & Hl & Hr). exists al, ar. eauto.
Qed.

Lemma within_app e : forall lo hi h k a, within lo hi h a e -> within lo hi (h ++ k) a e.
Proof.
  induction e as [n | op l IHl r IHr]; intros lo hi h k a; cbn [within].
  - intros [Hr Ha]. split; [assumption|]. now apply lookup_app_l_Some.
  - intros (al & ar & m & Hr & Ha & Hl & Hrr). exists al, ar, m.
    split; [assumption|]. split; [now apply lookup_app_l_Some|]. auto.
Qed.

Lemma within_layout e :
  forall h, within (length h) (length h + size e) (h ++ layout (length h) e) (length h) e.
Proof.
  induction e as [n | op l IHl r IHr]; intros h; cbn [within layout size].
  - split; [lia|]. now apply list_lookup_middle.
  - exists (S (length h)), (S (length h + size l)), (S (length h + size l)).
    split; [lia|]. split; [now apply list_lookup_middle|]. split.
    + set (o := Node.mk _ _ _ _).
      specialize (IHl (h ++ [o])%list).
      rewrite length_app in IHl. cbn [length] in IHl.
      rewrite Nat.add_1_r, <- app_assoc in IHl. cbn [app] in IHl.
      apply within_app with (k := layout (S (length h + size l)) r) in IHl.
      rewrite <- app_assoc in IHl. exact IHl.
    + set (o := Node.mk _ _ _ _).
      specialize (IHr (h ++ o :: layout (S (length h)) l)%list).
      rewrite length_app in IHr. cbn [length] in IHr.
      rewrite length_layout in IHr.
      replace (length h + S (size l)) with (S (length h + size l)) in IHr by lia.
      rewrite <- app_assoc in IHr. cbn [app] in IHr.
      replace (length h + S (size l + size r)) with (S (length h + size l) + size r) by lia.
      exact IHr.
Qed.

(** The object at the root of a stored expression. *)
Lemma within_root e lo hi h a :
  within lo hi h a e ->
  exists o, h !! a = Some o /\ Node.val o = Some (root_val e).
Proof.
  destruct e; cbn [within root_val].
  - intros [_ H]. eexists. split; [exact H | reflexivity].
  - intros (al & ar & m & _ & H & _). eexists. split; [exact H | reflexivity].
Qed.

Lemma decide_operator_operator {A} (x y : A) :
  (if decide (operator = operator) then x else y) = x.
Proof. destruct (decide (operator = operator)); [reflexivity | congruence]. Qed.

(** One rule on a stored expression.  The four hypotheses on [rule_fn] are
    the four ways a rule of the source acts on a node; both rules satisfy
    them. *)
Section Rule.
Variables (sym : string) (k : Z) (rule_fn : addr -> M unit).

Hypothesis sym_operator : Py.isnumeric sym = false.

Hypothesis fn_left :
  forall h toks self o l ol r z v t a b,
    h !! self = Some o -> Node.val o = Some sym ->
    Node.left o = Some (VObj l) -> Node.right o = Some (VObj r) ->
    h !! l = Some ol -> Node.val ol = Some z -> is_literal k z ->
    r <> self ->
    h !! r = Some (Node.mk (Some v) (Some t) (Some a) (Some b)) ->
    rule_fn self (mk_state h toks)
    = Returned (tt, mk_state
         (<[self := if decide (t = operator)
                    then Node.mk (Some v) (Some t) (Some a) (Some b)
                    else Node.mk (Some v) (Some t) (Some VFalse) (Some VFalse)]> h)
         toks).

Hypothesis fn_right_number :
  forall h toks self o l r lv la lb or z,
    h !! self = Some o -> Node.val o = Some sym ->
    Node.left o = Some (VObj l) -> Node.right o = Some (VObj r) ->
    h !! l = Some (Node.mk (Some lv) (Some number) (Some la) (Some lb)) ->
    not_literal k lv -> l <> self ->
    h !! r = Some or -> Node.val or = Some z -> is_literal k z ->
    rule_fn self (mk_state h toks)
    = Returned (tt, mk_state
         (<[self := Node.mk (Some lv) (Some number) (Some VFalse) (Some VFalse)]> h)
         toks).

Hypothesis fn_other :
  forall h toks self o v,
    h !! self = Some o -> Node.val o = Some v -> v <> sym ->
    rule_fn self (mk_state h toks) = Returned (tt, mk_state h toks).

Hypothesis fn_none :
  forall h toks self o l ol r or lv rv,
    h !! self = Some o -> Node.val o = Some sym ->
    Node.left o = Some (VObj l) -> Node.right o = Some (VObj r) ->
    h !! l = Some ol -> Node.val ol = Some lv -> not_literal k lv ->
    h !! r = Some or -> Node.val or = Some rv -> not_literal k rv ->
    rule_fn self (mk_state h toks) = Returned (tt, mk_state h toks).

Lemma rule_within lo hi h toks a e :
  plain e -> within lo hi h a e -> slips sym k e = false ->
  exists h',
    rule_fn a (mk_state h toks) = Returned (tt, mk_state h' toks)
    /\ within lo hi h' a (rule sym k e)
    /\ (forall b, b <> a -> h' !! b = h !! b)
    /\ length h' = length h.
Proof.
  intros Hp Hw Hs.
  assert (Hstay : forall o v, h !! a = Some o -> Node.val o = Some v -> v <> sym ->
            rule sym k e = e ->
            exists h',
              rule_fn a (mk_state h toks) = Returned (tt, mk_state h' toks)
              /\ within lo hi h' a (rule sym k e)
              /\ (forall b, b <> a -> h' !! b = h !! b)
              /\ length h' = length h).
  { intros o v Ho Hv Hne He. exists h. rewrite He.
    split; [now apply fn_other with o v|]. auto. }
  assert (Hleaf : forall n, lo <= a < hi -> a < length h ->
            within lo hi (<[a := leaf n]> h) a (Num n)
            /\ (forall b, b <> a -> <[a := leaf n]> h !! b = h !! b)
            /\ length (<[a := leaf n]> h) = length h).
  { intros n Hr Hlt. split; [|split].
    - split; [assumption|]. now apply list_lookup_insert_eq.
    - intros b Hb. now apply list_lookup_insert_ne.
    - apply length_insert. }
  destruct e as [n | op x y].
  - destruct Hw as [Hr Ha]. cbn [plain] in Hp.
    apply (Hstay _ n Ha eq_refl); [|reflexivity].
    intros ->. apply decimal_isnumeric in Hp. congruence.
  - destruct Hw as (al & ar & m & Hr & Ha & Hx & Hy).
    destruct Hp as (Hop & Hpx & Hpy).
    pose proof (within_range _ _ _ _ _ Hx) as Rx.
    pose proof (within_range _ _ _ _ _ Hy) as Ry.
    pose proof (lookup_lt_Some _ _ _ Ha) as Hlt.
    cbn [rule slips] in *.
    destruct (String.eqb op sym) eqn:E.
    2:{ apply String.eqb_neq in E.
        apply (Hstay _ op Ha eq_refl E). reflexivity. }
    apply String.eqb_eq in E. subst op.
    destruct (lit k x) eqn:Lx.
    + destruct (lit_true k x Hpx Lx) as (z & -> & Hz).
      destruct Hx as [_ Hal].
      destruct y as [n | op' yl yr].
      * destruct Hy as [_ Har].
        eexists. split.
        { etransitivity;
            [eapply (fn_left h toks a _ al _ ar z n number VFalse VFalse);
             [exact Ha | reflexivity | reflexivity | reflexivity | exact Hal
             | reflexivity | exact Hz | lia | exact Har]|].
          rewrite decide_number_operator. reflexivity. }
        apply Hleaf; assumption.
      * destruct Hy as (ayl & ayr & m2 & _ & Har & Hyl & Hyr).
        pose proof (within_range _ _ _ _ _ Hyl) as Ryl.
        pose proof (within_range _ _ _ _ _ Hyr) as Ryr.
        eexists. split.
        { etransitivity;
            [eapply (fn_left h toks a _ al _ ar z op' operator (VObj ayl) (VObj ayr));
             [exact Ha | reflexivity | reflexivity | reflexivity | exact Hal
             | reflexivity | exact Hz | lia | exact Har]|].
          rewrite decide_operator_operator. reflexivity. }
        split; [|split].
        -- cbn [within]. exists ayl, ayr, m2. split; [assumption|].
           split; [now apply list_lookup_insert_eq|]. split.
           ++ apply within_weaken with (lo := S ar) (hi := m2); [|lia|lia].
              eapply within_frame; [exact Hyl|].
              intros b Hb. apply list_lookup_insert_ne. lia.
           ++ eapply within_frame; [exact Hyr|].
              intros b Hb. apply list_lookup_insert_ne. lia.
        -- intros b Hb. now apply list_lookup_insert_ne.
        -- apply length_insert.
    + destruct (lit k y) eqn:Ly.
      * destruct (lit_true k y Hpy Ly) as (z & -> & Hz).
        destruct Hy as [_ Har].
        cbn in Hs.
        destruct x as [t | ? ? ?]; [|discriminate].
        destruct Hx as [_ Hal].
        pose proof (lit_false k (Num t) Hpx Lx) as Hnot. cbn [root_val] in Hnot.
        eexists. split.
        { eapply (fn_right_number h toks a _ al ar t VFalse VFalse _ z);
            [exact Ha | reflexivity | reflexivity | reflexivity | exact Hal
            | exact Hnot | lia | exact Har | reflexivity | exact Hz]. }
        apply Hleaf; assumption.
      * destruct (within_root _ _ _ _ _ Hx) as (ol & Hal & Hlv).
        destruct (within_root _ _ _ _ _ Hy) as (or & Har & Hrv).
        exists h. split.
        { eapply (fn_none h toks a _ al ol ar or);
            [exact Ha | reflexivity | reflexivity | reflexivity
            | exact Hal | exact Hlv | now apply lit_false
            | exact Har | exact Hrv | now apply lit_false]. }
        split; [|auto].
        exists al, ar, m. auto.
Qed.
End Rule.

Lemma additive_identity_within lo hi h toks a e :
  plain e -> within lo hi h a e -> slips "+" 0 e = false ->
  exists h',
    additive_identity a (mk_state h toks) = Returned (tt, mk_state h' toks)
    /\ within lo hi h' a (rule "+" 0 e)
    /\ (forall b, b <> a -> h' !! b = h !! b)
    /\ length h' = length h.
Proof.
  apply (rule_within "+" 0 additive_identity eq_refl
           additive_identity_left additive_identity_right_number
           additive_identity_other additive_identity_none).
Qed.

Lemma multiplicative_identity_within lo hi h toks a e :
  plain e -> within lo hi h a e -> slips "*" 1 e = false ->
  exists h',
    multiplicative_identity a (mk_state h toks) = Returned (tt, mk_state h' toks)
    /\ within lo hi h' a (rule "*" 1 e)
    /\ (forall b, b <> a -> h' !! b = h !! b)
    /\ length h' = length h.
Proof.
  apply (rule_within "*" 1 multiplicative_identity eq_refl
           multiplicative_identity_left multiplicative_identity_right_number
           multiplicative_identity_other multiplicative_identity_none).
Qed.

Lemma plain_rule sym k e : plain e -> plain (rule sym k e).
Proof.
  destruct e as [n | op x y]; cbn [rule plain]; [auto|].
  intros (Hop & Hx & Hy).
  destruct (String.eqb op sym); [|cbn [plain]; auto].
  destruct (lit k x); [assumption|].
  destruct (lit k y); [assumption | cbn [plain]; auto].
Qed.

Lemma plain_simp e : plain e -> plain (simp e).
Proof.
  induction e as [n | op l IHl r IHr]; cbn [simp plain]; [auto|].
  intros (Hop & Hl & Hr). apply plain_rule, plain_rule. cbn [plain]. auto.
Qed.

(** The part of [simplify_binops] that deals with one child: it is
    simplified when it is an operator node and left alone when it is a
    number. *)
Lemma simplify_child fuel (f : Node.t -> option value) c lo hi h toks a o ac :
  (is_bin c = true ->
   exists h',
     simplify_binops fuel ac (mk_state h toks) = Returned (tt, mk_state h' toks)
     /\ within lo hi h' ac (simp c)
     /\ (forall b, ~ lo <= b < hi -> h' !! b = h !! b)
     /\ length h' = length h) ->
  h !! a = Some o -> f o = Some (VObj ac) -> within lo hi h ac c ->
  exists h',
    (forall B (rest : M B),
       (t ← getattr2 f Node.type a;
        (if decide (t = operator) then
           x ← getattr f (VObj a); call x (simplify_binops fuel)
         else mret tt);; rest) (mk_state h toks)
       = rest (mk_state h' toks))
    /\ within lo hi h' ac (simp c)
    /\ (forall b, ~ lo <= b < hi -> h' !! b = h !! b)
    /\ length h' = length h.
Proof.
  intros IH Ho Hf Hw. destruct c as [n | op l r].
  - exists h. split; [|auto]. intros B rest.
    destruct Hw as [_ Hc].
    mstep (eapply getattr2_at; [exact Ho | exact Hf | exact Hc | reflexivity]).
    rewrite decide_number_operator.
    mstep reflexivity. reflexivity.
  - destruct (IH eq_refl) as (h' & Hrun & Hw' & Hfr & Hlen).
    exists h'. split; [|auto]. intros B rest.
    destruct Hw as (al & ar & m & _ & Hc & _).
    mstep (eapply getattr2_at; [exact Ho | exact Hf | exact Hc | reflexivity]).
    rewrite decide_operator_operator.
    mstep (mstep (eapply getattr_at; [exact Ho | exact Hf]); cbn [call]; exact Hrun).
    reflexivity.
Qed.

Lemma simplify_binops_within e :
  forall fuel lo hi h toks a,
    is_bin e = true -> plain e -> safe e = true ->
    within lo hi h a e -> height e <= fuel ->
    exists h',
      simplify_binops fuel a (mk_state h toks) = Returned (tt, mk_state h' toks)
      /\ within lo hi h' a (simp e)
      /\ (forall b, ~ lo <= b < hi -> h' !! b = h !! b)
      /\ length h' = length h.
Proof.
  induction e as [n | op l IHl r IHr]; intros fuel lo hi h toks a Hb Hp Hs Hw Hfuel;
    [discriminate|].
  destruct fuel as [|fuel]; [cbn in Hfuel; lia|]. cbn [height] in Hfuel.
  destruct Hp as (Hop & Hpl & Hpr).
  cbn [safe] in Hs.
  apply andb_prop in Hs as [Hs Hs4]. apply andb_prop in Hs as [Hs Hs3].
  apply andb_prop in Hs as [Hs1 Hs2].
  apply negb_true_iff in Hs3, Hs4.
  destruct Hw as (al & ar & m & Hr & Ha & Hl & Hrr).
  pose proof (within_range _ _ _ _ _ Hl) as Rl.
  pose proof (within_range _ _ _ _ _ Hrr) as Rr.
  rewrite simplify_binops_S.
  (* left child *)
  pose (o := Node.mk (Some op) (Some operator) (Some (VObj al)) (Some (VObj ar))).
  destruct (simplify_child fuel Node.left l (S a) m h toks a o al) as (h1 & Run1 & W1 & F1 & L1);
    [intros Hbl; apply IHl; [assumption .. | lia] | exact Ha | reflexivity | exact Hl |].
  rewrite Run1.
  assert (Ha1 : h1 !! a = Some (Node.mk (Some op) (Some operator) (Some (VObj al)) (Some (VObj ar))))
    by (rewrite F1 by lia; exact Ha).
  assert (Hr1 : within m hi h1 ar r).
  { eapply within_frame; [exact Hrr|]. intros b Hb'. apply F1. lia. }
  (* right child *)
  destruct (simplify_child fuel Node.right r m hi h1 toks a o ar) as (h2 & Run2 & W2 & F2 & L2);
    [intros Hbr; apply IHr; [assumption .. | lia] | exact Ha1 | reflexivity | exact Hr1 |].
  rewrite Run2.
  assert (Ha2 : h2 !! a = Some (Node.mk (Some op) (Some operator) (Some (VObj al)) (Some (VObj ar))))
    by (rewrite F2 by lia; exact Ha1).
  assert (W12 : within (S a) m h2 al (simp l)).
  { eapply within_frame; [exact W1|]. intros b Hb'. apply F2. lia. }
  set (e1 := Bin op (simp l) (simp r)) in *.
  assert (We1 : within lo hi h2 a e1).
  { exists al, ar, m. auto. }
  assert (Pe1 : plain e1).
  { cbn [plain e1]. auto using plain_simp. }
  (* the two rules *)
  destruct (additive_identity_within lo hi h2 toks a e1 Pe1 We1 Hs3)
    as (h3 & Run3 & W3 & F3 & L3).
  mstep (exact Run3).
  destruct (multiplicative_identity_within lo hi h3 toks a (rule "+" 0 e1)
              (plain_rule _ _ _ Pe1) W3 Hs4)
    as (h4 & Run4 & W4 & F4 & L4).
  exists h4. split; [exact Run4|]. split; [exact W4|]. split; [|lia].
  intros b Hb'. rewrite F4 by lia. rewrite F3 by lia.
  rewrite F2 by lia. apply F1. lia.
Qed.

(** ** Facts about [simp] *)

Lemma size_rule_le sym k e : size (rule sym k e) <= size e.
Proof.
  destruct e as [n | op x y]; cbn [rule]; [lia|].
  destruct (String.eqb op sym); [|lia].
  destruct (lit k x); [cbn; lia|]. destruct (lit k y); cbn; lia.
Qed.

Lemma size_simp_le e : size (simp e) <= size e.
Proof.
  induction e as [n | op l IHl r IHr]; cbn [simp]; [lia|].
  etransitivity; [apply size_rule_le|]. etransitivity; [apply size_rule_le|].
  cbn [size]. lia.
Qed.

Lemma irreducible_rule_add e : irreducible e = true -> rule "+" 0 e = e.
Proof.
  destruct e as [n | op x y]; cbn [irreducible rule]; [reflexivity|].
  intros H. apply andb_prop in H as [H _]. apply andb_prop in H as [_ H].
  apply negb_true_iff in H.
  destruct (String.eqb op "+"); [|reflexivity]. cbn in H.
  apply orb_false_elim in H as [-> ->]. reflexivity.
Qed.

Lemma irreducible_rule_mul e : irreducible e = true -> rule "*" 1 e = e.
Proof.
  destruct e as [n | op x y]; cbn [irreducible rule]; [reflexivity|].
  intros H. apply andb_prop in H as [_ H].
  apply negb_true_iff in H.
  destruct (String.eqb op "*"); [|reflexivity]. cbn in H.
  apply orb_false_elim in H as [-> ->]. reflexivity.
Qed.

Lemma irreducible_slips_add e : irreducible e = true -> slips "+" 0 e = false.
Proof.
  destruct e as [n | op x y]; cbn [irreducible slips]; [reflexivity|].
  intros H. apply andb_prop in H as [H _]. apply andb_prop in H as [_ H].
  apply negb_true_iff in H.
  destruct (String.eqb op "+"); [|reflexivity]. cbn in H.
  apply orb_false_elim in H as [-> ->]. reflexivity.
Qed.

Lemma irreducible_slips_mul e : irreducible e = true -> slips "*" 1 e = false.
Proof.
  destruct e as [n | op x y]; cbn [irreducible slips]; [reflexivity|].
  intros H. apply andb_prop in H as [_ H].
  apply negb_true_iff in H.
  destruct (String.eqb op "*"); [|reflexivity]. cbn in H.
  apply orb_false_elim in H as [-> ->]. reflexivity.
Qed.

Lemma irreducible_simp_id e : irreducible e = true -> simp e = e.
Proof.
  induction e as [n | op l IHl r IHr]; [reflexivity|].
  intros H. pose proof H as H'. cbn [irreducible] in H'.
  apply andb_prop in H' as [H' _]. apply andb_prop in H' as [H' _].
  apply andb_prop in H' as [Hl Hr].
  cbn [simp]. rewrite (IHl Hl), (IHr Hr).
  rewrite (irreducible_rule_add _ H). apply (irreducible_rule_mul _ H).
Qed.

Lemma irreducible_safe e : irreducible e = true -> safe e = true.
Proof.
  induction e as [n | op l IHl r IHr]; [reflexivity|].
  intros H. pose proof H as H'. cbn [irreducible] in H'.
  apply andb_prop in H' as [H' _]. apply andb_prop in H' as [H' _].
  apply andb_prop in H' as [Hl Hr].
  cbn [safe]. rewrite (IHl Hl), (IHr Hr).
  rewrite (irreducible_simp_id l Hl), (irreducible_simp_id r Hr).
  rewrite (irreducible_rule_add _ H).
  now rewrite (irreducible_slips_add _ H), (irreducible_slips_mul _ H).
Qed.

Lemma simp_irreducible e : irreducible (simp e) = true.
Proof.
  induction e as [n | op l IHl r IHr]; [reflexivity|].
  cbn [simp]. set (l' := simp l) in *. set (r' := simp r) in *.
  assert (Hstay : forall x, irreducible x = true -> irreducible (rule "*" 1 x) = true).
  { intros x Hx. now rewrite irreducible_rule_mul. }
  cbn [rule]. destruct (String.eqb op "+") eqn:Eadd.
  - destruct (lit 0 l') eqn:L0; [now apply Hstay|].
    destruct (lit 0 r') eqn:R0; [now apply Hstay|].
    apply String.eqb_eq in Eadd. subst op.
    cbn [rule String.eqb Ascii.eqb Bool.eqb irreducible].
    now rewrite IHl, IHr, L0, R0.
  - cbn [rule]. destruct (String.eqb op "*") eqn:Emul.
    + destruct (lit 1 l') eqn:L1; [assumption|].
      destruct (lit 1 r') eqn:R1; [assumption|].
      cbn [irreducible]. now rewrite IHl, IHr, Eadd, Emul, L1, R1.
    + cbn [irreducible]. now rewrite IHl, IHr, Eadd, Emul.
Qed.

Lemma simp_idempotent e : simp (simp e) = simp e.
Proof. apply irreducible_simp_id, simp_irreducible. Qed.

(** ** Whole runs on expressions that do not meet the slip *)

Lemma simplify_layout e :
  is_bin e = true -> plain e -> safe e = true ->
  exists h',
    simplify 0 (mk_state (layout 0 e) []) = Returned (tt, mk_state h' [])
    /\ within 0 (size e) h' 0 (simp e)
    /\ length h' = size e.
Proof.
  intros Hb Hp Hs. unfold simplify. cbn [heap].
  destruct (simplify_binops_within e (S (length (layout 0 e))) 0 (size e)
              (layout 0 e) [] 0 Hb Hp Hs)
    as (h' & Run & W & _ & L).
  - apply (within_layout e []).
  - rewrite length_layout. pose proof (height_le_size e). lia.
  - exists h'. rewrite length_layout in L. auto.
Qed.

Lemma toPrefix_within lo hi h toks a e :
  within lo hi h a e -> size e <= length h ->
  toPrefix a (mk_state h toks) = Returned (Py.join " " (tokens e), mk_state h toks).
Proof.
  intros Hw Hsz. apply toPrefix_repr; [|exact Hsz].
  eapply within_repr. exact Hw.
Qed.

Lemma run_simp e :
  is_bin e = true -> plain e -> safe e = true ->
  run (tokens e) = Returned (Py.join " " (tokens (simp e))).
Proof.
  intros Hb Hp Hs. unfold run, run_line, initial.
  rewrite <- (app_nil_r (tokens e)).
  mstep (apply build_layout; now apply plain_well_labelled).
  cbn [length app].
  destruct (simplify_layout e Hb Hp Hs) as (h' & Run & W & L).
  mstep (exact Run).
  rewrite (toPrefix_within 0 (size e) h' [] 0 (simp e) W).
  - reflexivity.
  - rewrite L. apply size_simp_le.
Qed.

Lemma height_simp_le_size e : height (simp e) <= size e.
Proof.
  etransitivity; [apply height_le_size | apply size_simp_le].
Qed.

Lemma simplify_within lo hi h toks a e :
  is_bin e = true -> plain e -> safe e = true ->
  within lo hi h a e -> size e <= length h ->
  exists h',
    simplify a (mk_state h toks) = Returned (tt, mk_state h' toks)
    /\ within lo hi h' a (simp e)
    /\ length h' = length h.
Proof.
  intros Hb Hp Hs Hw Hsz. unfold simplify. cbn [heap].
  destruct (simplify_binops_within e (S (length h)) lo hi h toks a Hb Hp Hs Hw)
    as (h' & Run & W & _ & L).
  - pose proof (height_le_size e). lia.
  - exists h'. auto.
Qed.

Lemma simplify_number_raises h toks a n :
  h !! a = Some (leaf n) ->
  simplify a (mk_state h toks) = Raised AttributeError.
Proof.
  intros Ha. unfold simplify. rewrite simplify_binops_S.
  apply bind_raised. unfold getattr2.
  mstep (eapply getattr_at; [exact Ha | reflexivity]).
  reflexivity.
Qed.

Lemma run_twice e :
  is_bin e = true -> plain e -> safe e = true ->
  result ((AST ← build; simplify AST;; simplify AST;; toPrefix AST)
            (initial (tokens e)))
  = if is_bin (simp e) then Returned (Py.join " " (tokens (simp e)))
    else Raised AttributeError.
Proof.
  intros Hb Hp Hs. unfold initial.
  rewrite <- (app_nil_r (tokens e)).
  mstep (apply build_layout; now apply plain_well_labelled).
  cbn [length app].
  destruct (simplify_layout e Hb Hp Hs) as (h' & Run & W & L).
  mstep (exact Run).
  destruct (is_bin (simp e)) eqn:Hb'.
  - destruct (simplify_within 0 (size e) h' [] 0 (simp e) Hb'
                (plain_simp e Hp) (irreducible_safe _ (simp_irreducible e)) W)
      as (h'' & Run' & W' & L').
    + rewrite L. apply size_simp_le.
    + mstep (exact Run'). rewrite simp_idempotent in W'.
      rewrite (toPrefix_within 0 (size e) h'' [] 0 (simp e) W');
        [reflexivity|]. rewrite L', L. apply size_simp_le.
  - destruct (simp e) as [n|] eqn:E; [|discriminate].
    destruct W as [_ Ha].
    erewrite bind_raised; [reflexivity|].
    now apply simplify_number_raises with n.
Qed.

Lemma run_number n :
  Py.isnumeric n = true -> run [n] = Raised AttributeError.
Proof.
  intros Hn. unfold run, run_line, initial.
  mstep (apply (build_layout (Num n) [] []); exact Hn).
  erewrite bind_raised; [reflexivity|].
  now apply simplify_number_raises with n.
Qed.

(** The left operand is the identity element. *)
Lemma is_literal_decimal k z : is_literal k z -> decimal z = true.
Proof.
  intros [Hn Hi]. destruct z as [|c z]; [discriminate|].
  unfold Py.int in Hi. cbn [decimal].
  destruct (Py.all_chars Py.is_decimal_char (String c z)); [reflexivity | discriminate].
Qed.

Lemma lit_is_literal k z : is_literal k z -> lit k (Num z) = true.
Proof. intros [Hn Hi]. cbn [lit]. now rewrite Hn, Hi, Z.eqb_refl. Qed.

Lemma run_left_identity_add z x :
  is_literal 0 z -> plain x -> safe x = true ->
  run ("+" :: z :: tokens x) = Returned (Py.join " " (tokens (simp x))).
Proof.
  intros Hz Hp Hs.
  pose proof (lit_is_literal 0 z Hz) as Hl.
  assert (E : simp (Bin "+" (Num z) x) = simp x).
  { cbn [simp rule String.eqb Ascii.eqb Bool.eqb]. rewrite Hl.
    apply irreducible_rule_mul, simp_irreducible. }
  rewrite <- E. apply (run_simp (Bin "+" (Num z) x)).
  - reflexivity.
  - cbn [plain]. split; [reflexivity|]. split; [now apply is_literal_decimal with 0%Z | assumption].
  - cbn [safe simp slips rule String.eqb Ascii.eqb Bool.eqb]. rewrite Hl, Hs.
    cbn. now rewrite irreducible_slips_mul by apply simp_irreducible.
Qed.

Lemma run_left_identity_mul u x :
  is_literal 1 u -> plain x -> safe x = true ->
  run ("*" :: u :: tokens x) = Returned (Py.join " " (tokens (simp x))).
Proof.
  intros Hu Hp Hs.
  pose proof (lit_is_literal 1 u Hu) as Hl.
  assert (E : simp (Bin "*" (Num u) x) = simp x).
  { cbn [simp rule String.eqb Ascii.eqb Bool.eqb]. now rewrite Hl. }
  rewrite <- E. apply (run_simp (Bin "*" (Num u) x)).
  - reflexivity.
  - cbn [plain]. split; [reflexivity|]. split; [now apply is_literal_decimal with 1%Z | assumption].
  - cbn [safe simp slips rule String.eqb Ascii.eqb Bool.eqb]. rewrite Hl, Hs.
    reflexivity.
Qed.

(** ** The indented rendering *)

Lemma append_nil_r (s : string) : (s ++ "")%string = s.
Proof.
  induction s as [|c s IH]; [reflexivity|].
  change (String c (s ++ "") = String c s)%string. now rewrite IH.
Qed.

Lemma str_mul_add s n m : str_mul s (n + m) = (str_mul s n ++ str_mul s m)%string.
Proof.
  induction n as [|n IH]; [reflexivity|].
  cbn [Nat.add str_mul]. now rewrite IH, append_assoc.
Qed.

Lemma str_mul_two n : str_mul "  " n = spaces (2 * n).
Proof.
  unfold spaces. induction n as [|n IH]; [reflexivity|].
  replace (2 * S n) with (2 + 2 * n) by lia.
  cbn [str_mul]. rewrite str_mul_add, IH. reflexivity.
Qed.

Lemma cat_app x y : cat (x ++ y) = (cat x ++ cat y)%string.
Proof.
  induction x as [|a x IH]; [reflexivity|].
  cbn [app cat]. now rewrite IH, append_assoc.
Qed.

Lemma join_cat sep x l :
  Py.join sep (x :: l) = (x ++ cat (map (fun y => sep ++ y) l))%string.
Proof.
  revert x. induction l as [|y l IH]; intros x.
  - cbn. now rewrite append_nil_r.
  - change (Py.join sep (x :: y :: l)) with (x ++ sep ++ Py.join sep (y :: l))%string.
    rewrite IH. cbn [map cat]. now rewrite !append_assoc.
Qed.

Lemma BinOpAst_str_prepr t :
  forall fuel a i s v l r,
    t = PNode v l r ->
    prepr (heap s) (VObj a) t -> pheight t <= fuel ->
    BinOpAst_str fuel a i s
    = Returned ((spaces (2 * i) ++ v) ++ below i l r, s).
Proof.
  induction t as [|v0 l0 IHl r0 IHr]; intros fuel a i s v l r Ht Hp Hfuel;
    [discriminate|].
  injection Ht as -> -> ->.
  destruct fuel as [|fuel]; [cbn in Hfuel; lia|]. cbn [pheight] in Hfuel.
  destruct Hp as (a' & o & cl & cr & Ea & Ho & Hv & Hl & Hr & Hpl & Hpr).
  injection Ea as <-.
  assert (Hchild : forall c t',
            (forall fuel a i s v l r, t' = PNode v l r ->
               prepr (heap s) (VObj a) t' -> pheight t' <= fuel ->
               BinOpAst_str fuel a i s
               = Returned ((spaces (2 * i) ++ v) ++ below i l r, s)) ->
            prepr (heap s) c t' -> pheight t' <= fuel ->
            forall (get : M value), get s = Returned (c, s) ->
            match c with
            | VFalse => mret ""
            | VObj _ =>
                x0 ← get;
                s0 ← call x0 (fun a => BinOpAst_str fuel a (i + 1));
                mret (((nl ++ "  ") ++ str_mul "  " i) ++ s0)
            end s
            = Returned (cat (map (fun x => nl ++ line x) (depth_tokens (S i) t')), s)).
  { intros c t' IH Hc Hh get Hget. destruct t' as [|v' l' r'].
    - cbn [prepr] in Hc. subst c. reflexivity.
    - pose proof Hc as Hc'.
      destruct Hc as (ac & oc & ? & ? & -> & _).
      mstep (exact Hget). cbn [call].
      mstep (apply (IH fuel ac (i + 1) s v' l' r' eq_refl Hc' Hh)).
      cbn [depth_tokens map cat]. unfold mret, M_ret. f_equal. f_equal.
      unfold line at 1. cbn [fst snd]. unfold below.
      rewrite str_mul_two. unfold spaces.
      replace (4 * S i) with (2 + 2 * i + 2 * (i + 1)) by lia.
      rewrite !str_mul_add. cbn [str_mul].
      rewrite !append_assoc. cbn [append]. rewrite Nat.add_1_r. reflexivity. }
  cbn [BinOpAst_str].
  mstep (eapply getattr_at; [exact Ho | exact Hl]).
  mstep (apply (Hchild cl l IHl Hpl ltac:(lia));
         eapply getattr_at; [exact Ho | exact Hl]).
  mstep (eapply getattr_at; [exact Ho | exact Hr]).
  mstep (apply (Hchild cr r IHr Hpr ltac:(lia));
         eapply getattr_at; [exact Ho | exact Hr]).
  mstep (eapply getattr_at; [exact Ho | exact Hv]).
  unfold mret, M_ret. f_equal. f_equal.
  unfold below. rewrite map_app, cat_app, str_mul_two.
  now rewrite !append_assoc.
Qed.

(** ** Multiplication by zero *)

Lemma mult_by_zero_within lo hi h toks a e :
  plain e -> within lo hi h a e ->
  exists h',
    mult_by_zero a (mk_state h toks) = Returned (tt, mk_state h' toks)
    /\ within lo hi h' a (mbz e)
    /\ (forall b, b <> a -> h' !! b = h !! b)
    /\ length h' = length h.
Proof.
  intros Hp Hw. unfold mult_by_zero.
  assert (Hzero : forall o, h !! a = Some o -> lo <= a < hi ->
            exists h',
              (setattr Node.set_val a "0";;
               setattr Node.set_type a number;;
               setattr Node.set_left a VFalse;;
               setattr Node.set_right a VFalse) (mk_state h toks)
              = Returned (tt, mk_state h' toks)
              /\ within lo hi h' a (Num "0")
              /\ (forall b, b <> a -> h' !! b = h !! b)
              /\ length h' = length h).
  { intros o Ho Hr. pose proof (lookup_lt_Some _ _ _ Ho) as Hlt.
    eexists. split.
    { mstep (eapply setattr_at; exact Ho).
      mstep (eapply setattr_ins; exact Hlt).
      mstep (eapply setattr_ins; exact Hlt).
      rewrite setattr_ins by exact Hlt. reflexivity. }
    split; [|split].
    - split; [assumption|]. now apply list_lookup_insert_eq.
    - intros b Hb. now apply list_lookup_insert_ne.
    - apply length_insert. }
  destruct e as [n | op x y].
  - destruct Hw as [Hr Ha]. cbn [plain] in Hp. exists h. split; [|cbn [mbz within]; auto].
    mstep (eapply getattr_at; [exact Ha | reflexivity]).
    assert (E : String.eqb n "*" = false).
    { apply String.eqb_neq. intros ->. apply decimal_isnumeric in Hp. discriminate. }
    now rewrite E.
  - destruct Hw as (al & ar & m & Hr & Ha & Hx & Hy).
    destruct Hp as (Hop & Hpx & Hpy).
    destruct (within_root _ _ _ _ _ Hx) as (ol & Hal & Hlv).
    destruct (within_root _ _ _ _ _ Hy) as (or & Har & Hrv).
    mstep (eapply getattr_at; [exact Ha | reflexivity]).
    cbn [mbz]. destruct (String.eqb op "*") eqn:E; cbn [andb].
    2:{ exists h. split; [reflexivity|]. split; [|auto]. exists al, ar, m. auto. }
    destruct (lit 0 x) eqn:Lx; cbn [orb].
    + destruct (lit_true 0 x Hpx Lx) as (z & -> & Hz). cbn [root_val] in Hlv.
      mstep (eapply numeric_and_equals_true;
             [exact Ha | reflexivity | exact Hal | exact Hlv | exact Hz]).
      mstep reflexivity.
      now apply Hzero with (o := Node.mk (Some op) (Some operator) (Some (VObj al)) (Some (VObj ar))).
    + mstep (eapply numeric_and_equals_false;
             [exact Ha | reflexivity | exact Hal | exact Hlv | now apply lit_false]).
      destruct (lit 0 y) eqn:Ly.
      * destruct (lit_true 0 y Hpy Ly) as (z & -> & Hz). cbn [root_val] in Hrv.
        mstep (eapply numeric_and_equals_true;
               [exact Ha | reflexivity | exact Har | exact Hrv | exact Hz]).
        now apply Hzero with (o := Node.mk (Some op) (Some operator) (Some (VObj al)) (Some (VObj ar))).
      * mstep (eapply numeric_and_equals_false;
               [exact Ha | reflexivity | exact Har | exact Hrv | now apply lit_false]).
        exists h. split; [reflexivity|]. split; [|auto]. exists al, ar, m. auto.
Qed.

(** ** The constructor on any token list *)

Lemma length_blayout b : forall base, length (blayout base b) = bsize b.
Proof.
  induction b as [| n | op l IHl r IHr]; intros base; cbn [blayout bsize length];
    [reflexivity | reflexivity |].
  now rewrite length_app, IHl, IHr.
Qed.

Lemma parse_rest_length fuel :
  forall toks, length (snd (parse fuel toks)) <= length toks.
Proof.
  induction fuel as [|fuel IH]; intros toks; cbn [parse]; [cbn; lia|].
  destruct toks as [|tok rest]; [cbn; lia|].
  destruct (Py.isnumeric tok); [cbn; lia|].
  pose proof (IH rest) as H1.
  destruct (parse fuel rest) as [l rest1]. cbn [snd] in H1.
  pose proof (IH rest1) as H2.
  destruct (parse fuel rest1) as [r rest2]. cbn [snd length] in *. lia.
Qed.

Lemma BinOpAst_init_parse fuel :
  forall h toks,
    length toks < fuel ->
    BinOpAst_init fuel (length h) (mk_state (h ++ [Node.bare]) toks)
    = Returned (tt, mk_state (h ++ blayout (length h) (fst (parse fuel toks)))
                             (snd (parse fuel toks))).
Proof.
  induction fuel as [|fuel IH]; intros h toks Hfuel; [lia|].
  rewrite BinOpAst_init_S. cbn [parse].
  destruct toks as [|tok rest].
  { mstep reflexivity. reflexivity. }
  cbn [length] in Hfuel.
  mstep reflexivity. mstep reflexivity.
  mstep (apply setattr_mid).
  mstep (apply getattr_mid; reflexivity).
  destruct (Py.isnumeric tok).
  - mstep (apply setattr_mid). mstep (apply setattr_mid).
    rewrite setattr_mid. reflexivity.
  - mstep (apply setattr_mid).
    assert (Hcall : forall h0 toks0, length toks0 < fuel ->
              BinOpAst fuel (mk_state h0 toks0)
              = Returned (length h0,
                          mk_state (h0 ++ blayout (length h0) (fst (parse fuel toks0)))
                                   (snd (parse fuel toks0)))).
    { intros h0 toks0 H0. unfold BinOpAst.
      mstep reflexivity. mstep (apply IH; exact H0). reflexivity. }
    pose proof (parse_rest_length fuel rest) as Hlen1.
    mstep (apply Hcall; lia).
    destruct (parse fuel rest) as [l rest1]. cbn [fst snd] in *.
    rewrite length_app. cbn [length]. rewrite Nat.add_1_r.
    rewrite <- app_assoc. cbn [app].
    mstep (apply setattr_mid).
    match goal with |- context [mk_state ?x rest1] => set (h2 := x) end.
    mstep (apply Hcall; lia).
    destruct (parse fuel rest1) as [r rest2]. cbn [fst snd] in *.
    assert (Hl2 : length h2 = S (length h) + bsize l).
    { subst h2. rewrite length_app. cbn [length]. rewrite length_blayout. lia. }
    rewrite Hl2. subst h2. rewrite <- app_assoc. cbn [app].
    rewrite setattr_mid. reflexivity.
Qed.

(** [build] on any store and any token list. *)
Lemma build_parse h toks :
  build (mk_state h toks)
  = Returned (length h,
              mk_state (h ++ blayout (length h) (fst (parse (S (length toks)) toks)))
                       (snd (parse (S (length toks)) toks))).
Proof.
  unfold build, BinOpAst. cbn [prefix_list].
  mstep reflexivity.
  mstep (apply BinOpAst_init_parse; lia).
  reflexivity.
Qed.



(** ** The right-operand branch over an operator, on whole runs *)

Lemma simp_bin_inv x op a b : simp x = Bin op a b -> is_bin x = true.
Proof. destruct x; [discriminate | reflexivity]. Qed.

(** The store after the children of [x sym z] have been simplified, [x]
    simplifying to an operator over a number [a]. *)
Lemma simplify_children_right_literal sym x z op' a xr fuel :
  Py.isnumeric sym = false -> plain x -> safe x = true ->
  simp x = Bin op' (Num a) xr -> decimal z = true ->
  height x <= fuel ->
  exists h1 al ar aa cr,
    (forall B (rest : M B),
       (lt ← getattr2 Node.left Node.type 0;
        (if decide (lt = operator) then
           l ← getattr Node.left (VObj 0); call l (simplify_binops fuel)
         else mret tt);;
        rt ← getattr2 Node.right Node.type 0;
        (if decide (rt = operator) then
           r ← getattr Node.right (VObj 0); call r (simplify_binops fuel)
         else mret tt);;
        rest) (mk_state (layout 0 (Bin sym x (Num z))) [])
       = rest (mk_state h1 []))
    /\ h1 !! 0 = Some (Node.mk (Some sym) (Some operator) (Some (VObj al)) (Some (VObj ar)))
    /\ h1 !! al = Some (Node.mk (Some op') (Some operator) (Some (VObj aa)) (Some cr))
    /\ h1 !! aa = Some (leaf a)
    /\ h1 !! ar = Some (leaf z)
    /\ 0 < al /\ al < aa /\ 0 < ar.
Proof.
  intros Hsym Hp Hs Hx Hz Hfuel.
  pose proof (within_layout (Bin sym x (Num z)) []) as Hw.
  cbn [length app] in Hw. set (h0 := layout 0 (Bin sym x (Num z))) in *.
  destruct Hw as (al & ar & m & Hr & Ha & Hwx & Hwz).
  pose proof (within_range _ _ _ _ _ Hwx) as Rx.
  pose proof (within_range _ _ _ _ _ Hwz) as Rz.
  set (o := Node.mk (Some sym) (Some operator) (Some (VObj al)) (Some (VObj ar))) in *.
  destruct (simplify_child fuel Node.left x 1 m h0 [] 0 o al) as (h1 & Run1 & W1 & F1 & L1);
    [intros Hb; apply simplify_binops_within; assumption | exact Ha | reflexivity | exact Hwx |].
  assert (Ha1 : h1 !! 0 = Some o) by (rewrite F1 by lia; exact Ha).
  assert (Hz1 : within m (0 + size (Bin sym x (Num z))) h1 ar (Num z)).
  { eapply within_frame; [exact Hwz|]. intros b Hb'. apply F1. lia. }
  destruct (simplify_child fuel Node.right (Num z) m (0 + size (Bin sym x (Num z))) h1 [] 0 o ar)
    as (h2 & Run2 & W2 & F2 & L2);
    [discriminate | exact Ha1 | reflexivity | exact Hz1 |].
  rewrite Hx in W1. destruct W1 as (aa & axr & m' & Ral & Hal & Waa & Wxr).
  pose proof (within_range _ _ _ _ _ Wxr) as Rxr.
  destruct Waa as [Raa Haa].
  exists h2, al, ar, aa, (VObj axr).
  split; [intros B rest; rewrite Run1, Run2; reflexivity|].
  destruct W2 as [_ Har2].
  split; [rewrite F2 by lia; exact Ha1|].
  split; [rewrite F2 by lia; exact Hal|].
  split; [rewrite F2 by lia; exact Haa|].
  split; [exact Har2 | lia].
Qed.

Lemma isnumeric_false_not_literal k v : Py.isnumeric v = false -> not_literal k v.
Proof. now left. Qed.

(** A rule that has to test the right operand of a node whose [right] is
    [False] raises. *)
Lemma multiplicative_identity_right_False h toks self o l ol lv :
  h !! self = Some o -> Node.val o = Some "*" ->
  Node.left o = Some (VObj l) -> Node.right o = Some VFalse ->
  h !! l = Some ol -> Node.val ol = Some lv -> not_literal 1 lv ->
  multiplicative_identity self (mk_state h toks) = Raised AttributeError.
Proof.
  intros Ho Hv Hl Hr Hol Hlv Hnot. unfold multiplicative_identity.
  mstep (eapply getattr_at; [exact Ho | exact Hv]).
  cbn [String.eqb Ascii.eqb Bool.eqb].
  mstep (eapply numeric_and_equals_false; [exact Ho | exact Hl | exact Hol | exact Hlv | exact Hnot]).
  apply bind_raised. unfold numeric_and_equals. apply bind_raised.
  unfold getattr2. mstep (eapply getattr_at; [exact Ho | exact Hr]).
  reflexivity.
Qed.

Lemma toPrefix_right_False h toks r v aa a :
  h !! r = Some (Node.mk (Some v) (Some operator) (Some (VObj aa)) (Some VFalse)) ->
  h !! aa = Some (leaf a) ->
  toPrefix r (mk_state h toks) = Raised AttributeError.
Proof.
  intros Hr Haa. unfold toPrefix. cbn [heap].
  pose proof (lookup_lt_Some _ _ _ Hr) as Hlt.
  destruct (length h) as [|n] eqn:E; [lia|].
  rewrite prefix_str_S.
  mstep (eapply getattr_at; [exact Hr | reflexivity]).
  mstep (eapply getattr_at; [exact Hr | reflexivity]).
  mstep (eapply getattr_at; [exact Hr | reflexivity]).
  cbn [call].
  mstep (apply (prefix_str_repr (Num a)); [exact Haa | cbn; lia]).
  mstep (eapply getattr_at; [exact Hr | reflexivity]).
  reflexivity.
Qed.

Lemma str_right_False h toks r o v aa a :
  h !! r = Some o -> Node.val o = Some v ->
  Node.left o = Some (VObj aa) -> Node.right o = Some VFalse ->
  h !! aa = Some (leaf a) ->
  str r (mk_state h toks)
  = Returned (((v ++ nl) ++ "    ") ++ a, mk_state h toks).
Proof.
  intros Hr Hv Hl Hrr Haa. unfold str. cbn [heap].
  pose proof (lookup_lt_Some _ _ _ Hr) as Hlt.
  rewrite (BinOpAst_str_prepr (PNode v (PNode a PNone PNone) PNone)
             (S (length h)) r 0 (mk_state h toks) v (PNode a PNone PNone) PNone eq_refl).
  - unfold below, line, spaces.
    cbn [depth_tokens app map cat fst snd Nat.mul Nat.add str_mul].
    rewrite !append_nil_r, !append_assoc. reflexivity.
  - cbn [prepr heap]. exists r, o, (VObj aa), VFalse.
    repeat (split; [solve [reflexivity | assumption]|]).
    split; [|reflexivity].
    exists aa, (leaf a), VFalse, VFalse.
    repeat (split; [solve [reflexivity | assumption]|]). reflexivity.
  - cbn. lia.
Qed.

Lemma simp_root_not_literal k x op' a xr :
  plain x -> simp x = Bin op' a xr -> not_literal k op'.
Proof.
  intros Hp Hx. pose proof (plain_simp x Hp) as Hp'. rewrite Hx in Hp'.
  destruct Hp' as (Hop & _). now left.
Qed.

Lemma run_right_zero_store x z op' a xr :
  plain x -> safe x = true -> simp x = Bin op' (Num a) xr -> is_literal 0 z ->
  (op' = "*" /\
   (AST ← build; simplify AST) (initial ("+" :: tokens x ++ [z])) = Raised AttributeError)
  \/
  (exists h2 aa,
     (AST ← build; simplify AST;; mret AST) (initial ("+" :: tokens x ++ [z]))
     = Returned (0, mk_state h2 [])
     /\ h2 !! 0 = Some (Node.mk (Some op') (Some operator) (Some (VObj aa)) (Some VFalse))
     /\ h2 !! aa = Some (leaf a)).
Proof.
  intros Hp Hs Hx Hz.
  pose proof (is_literal_decimal 0 z Hz) as Hdz.
  assert (Hpe : plain (Bin "+" x (Num z))) by (cbn [plain]; auto).
  set (e := Bin "+" x (Num z)) in *.
  assert (Hb : forall B (k : addr -> M B),
             (AST ← build; k AST) (initial ("+" :: tokens x ++ [z]))
             = k 0 (mk_state (layout 0 e) [])).
  { intros B k. unfold initial.
    change ("+" :: tokens x ++ [z]) with (tokens e).
    rewrite <- (app_nil_r (tokens e)).
    mstep (apply build_layout; now apply plain_well_labelled).
    reflexivity. }
  destruct (simplify_children_right_literal "+" x z op' a xr (length (layout 0 e))
              eq_refl Hp Hs Hx Hdz)
    as (h1 & al & ar & aa & cr & Run & H0 & Hal & Haa & Har & Pal & Paa & Par).
  { rewrite length_layout. pose proof (height_le_size x). cbn [size e]. lia. }
  assert (Hadd : additive_identity 0 (mk_state h1 [])
                 = Returned (tt, mk_state
                      (<[0 := Node.mk (Some op') (Some operator) (Some (VObj aa)) (Some VFalse)]> h1) [])).
  { eapply (additive_identity_right_operator h1 [] 0 _ al ar op' aa cr _ z (leaf a) VFalse);
      [exact H0 | reflexivity | reflexivity | reflexivity | exact Hal
      | now apply (simp_root_not_literal 0 x op' (Num a) xr) | lia
      | exact Har | reflexivity | exact Hz | lia | exact Haa | reflexivity]. }
  set (h2 := <[0 := _]> h1) in *.
  pose proof (lookup_lt_Some _ _ _ H0) as Hlt.
  assert (H20 : h2 !! 0 = Some (Node.mk (Some op') (Some operator) (Some (VObj aa)) (Some VFalse)))
    by (subst h2; now apply list_lookup_insert_eq).
  assert (H2a : h2 !! aa = Some (leaf a))
    by (subst h2; rewrite list_lookup_insert_ne by lia; exact Haa).
  destruct (String.eqb op' "*") eqn:E.
  - left. apply String.eqb_eq in E. split; [exact E|]. subst op'.
    rewrite Hb. unfold simplify. cbn [heap]. rewrite simplify_binops_S, Run.
    mstep (exact Hadd).
    eapply multiplicative_identity_right_False;
      [exact H20 | reflexivity | reflexivity | reflexivity | exact H2a | reflexivity |].
    pose proof (simp_irreducible x) as Hirr. rewrite Hx in Hirr.
    cbn [irreducible String.eqb Ascii.eqb Bool.eqb andb] in Hirr.
    apply andb_prop in Hirr as [_ Hirr]. apply negb_true_iff in Hirr.
    apply orb_false_elim in Hirr as [Hl1 _].
    pose proof (plain_simp x Hp) as Hp'. rewrite Hx in Hp'.
    destruct Hp' as (_ & Hpa & _).
    apply (lit_false 1 (Num a) Hpa Hl1).
  - right. apply String.eqb_neq in E. exists h2, aa.
    split; [|auto]. rewrite Hb.
    mstep (unfold simplify; cbn [heap]; rewrite simplify_binops_S, Run;
           mstep (exact Hadd);
           eapply multiplicative_identity_other; [exact H20 | reflexivity | exact E]).
    reflexivity.
Qed.

Lemma run_right_zero_raises x z op' a xr :
  plain x -> safe x = true -> simp x = Bin op' (Num a) xr -> is_literal 0 z ->
  run ("+" :: tokens x ++ [z]) = Raised AttributeError.
Proof.
  intros Hp Hs Hx Hz. unfold run, run_line.
  destruct (run_right_zero_store x z op' a xr Hp Hs Hx Hz)
    as [[_ Hraise] | (h2 & aa & Hrun & H0 & Haa)].
  - unfold mbind, M_bind in *.
    destruct (build (initial ("+" :: tokens x ++ [z]))) as [[r s]|e|];
      [| injection Hraise as ->; reflexivity | discriminate].
    now rewrite Hraise.
  - unfold mbind, M_bind in *.
    destruct (build (initial ("+" :: tokens x ++ [z]))) as [[r s]| |]; try discriminate.
    destruct (simplify r s) as [[[] s']| |]; try discriminate.
    injection Hrun as -> ->.
    now rewrite (toPrefix_right_False h2 [] 0 op' aa a H0 Haa).
Qed.

Lemma run_right_one_store x u op' a xr :
  plain x -> safe x = true -> simp x = Bin op' (Num a) xr -> is_literal 1 u ->
  exists h2 aa,
    (AST ← build; simplify AST;; mret AST) (initial ("*" :: tokens x ++ [u]))
    = Returned (0, mk_state h2 [])
    /\ h2 !! 0 = Some (Node.mk (Some op') (Some operator) (Some (VObj aa)) (Some VFalse))
    /\ h2 !! aa = Some (leaf a).
Proof.
  intros Hp Hs Hx Hu.
  pose proof (is_literal_decimal 1 u Hu) as Hdu.
  assert (Hpe : plain (Bin "*" x (Num u))) by (cbn [plain]; auto).
  set (e := Bin "*" x (Num u)) in *.
  assert (Hb : forall B (k : addr -> M B),
             (AST ← build; k AST) (initial ("*" :: tokens x ++ [u]))
             = k 0 (mk_state (layout 0 e) [])).
  { intros B k. unfold initial.
    change ("*" :: tokens x ++ [u]) with (tokens e).
    rewrite <- (app_nil_r (tokens e)).
    mstep (apply build_layout; now apply plain_well_labelled).
    reflexivity. }
  destruct (simplify_children_right_literal "*" x u op' a xr (length (layout 0 e))
              eq_refl Hp Hs Hx Hdu)
    as (h1 & al & ar & aa & cr & Run & H0 & Hal & Haa & Har & Pal & Paa & Par).
  { rewrite length_layout. pose proof (height_le_size x). cbn [size e]. lia. }
  pose proof (lookup_lt_Some _ _ _ H0) as Hlt.
  exists (<[0 := Node.mk (Some op') (Some operator) (Some (VObj aa)) (Some VFalse)]> h1), aa.
  split; [|split].
  - rewrite Hb.
    mstep (unfold simplify; cbn [heap]; rewrite simplify_binops_S, Run;
           mstep (eapply additive_identity_other; [exact H0 | reflexivity | discriminate]);
           eapply (multiplicative_identity_right_operator h1 [] 0 _ al ar op' aa cr _ u (leaf a) VFalse);
           [exact H0 | reflexivity | reflexivity | reflexivity | exact Hal
           | now apply (simp_root_not_literal 1 x op' (Num a) xr) | lia
           | exact Har | reflexivity | exact Hu | lia | exact Haa | reflexivity]).
    reflexivity.
  - now apply list_lookup_insert_eq.
  - rewrite list_lookup_insert_ne by lia. exact Haa.
Qed.

(** ** Further results *)

Lemma build_tokens e :
  well_labelled e ->
  forall B (k : addr -> M B),
    (AST ← build; k AST) (initial (tokens e)) = k 0 (mk_state (layout 0 e) []).
Proof.
  intros Hwl B k. unfold initial.
  rewrite <- (app_nil_r (tokens e)).
  mstep (apply build_layout; assumption).
  reflexivity.
Qed.

(** X1: on an expression with decimal numbers whose simplification never
    has to remove a right-hand identity element from under an operator left
    operand, the run returns the prefix form of [simp e]: the expression
    rewritten bottom-up by [0 + x = x], [x + 0 = x], [1 * x = x],
    [x * 1 = x]. *)
Theorem run_computes_simp (e : expr) :
  is_bin e = true -> plain e -> safe e = true ->
  run (tokens e) = Returned (Py.join " " (tokens (simp e))).
Proof. apply run_simp. Qed.

Lemma run_computes_simp_witness :
  run ["+"; "0"; "*"; "1"; "4"] = Returned "4".
Proof.
  apply (run_computes_simp (Bin "+" (Num "0") (Bin "*" (Num "1") (Num "4")))).
  - reflexivity.
  - cbn [plain]. repeat split; reflexivity.
  - reflexivity.
Defined.

(** X2: an expression in which no [+] has a zero operand and no [*] has a
    one operand comes back unchanged. *)
Theorem run_leaves_irreducible_unchanged (e : expr) :
  is_bin e = true -> plain e -> irreducible e = true ->
  run (tokens e) = Returned (Py.join " " (tokens e)).
Proof.
  intros Hb Hp Hi.
  rewrite (run_simp e Hb Hp (irreducible_safe e Hi)).
  now rewrite (irreducible_simp_id e Hi).
Qed.

Lemma run_leaves_irreducible_unchanged_witness :
  run ["*"; "0"; "+"; "3"; "5"] = Returned "* 0 + 3 5".
Proof.
  apply (run_leaves_irreducible_unchanged (Bin "*" (Num "0") (Bin "+" (Num "3") (Num "5")))).
  - reflexivity.
  - cbn [plain]. repeat split; reflexivity.
  - reflexivity.
Defined.

(** X3: an identity element as left operand is dropped, whatever the right
    operand is (a number or an operator expression), and the result is the
    simplified right operand. *)
Theorem left_identity_is_dropped (z u : string) (x : expr) :
  is_literal 0 z -> is_literal 1 u -> plain x -> safe x = true ->
  run ("+" :: z :: tokens x) = Returned (Py.join " " (tokens (simp x)))
  /\ run ("*" :: u :: tokens x) = Returned (Py.join " " (tokens (simp x))).
Proof.
  intros Hz Hu Hp Hs. split.
  - now apply run_left_identity_add.
  - now apply run_left_identity_mul.
Qed.

Lemma left_identity_is_dropped_witness :
  run ["+"; "00"; "+"; "3"; "*"; "1"; "5"] = Returned "+ 3 5"
  /\ run ["*"; "1"; "+"; "3"; "*"; "1"; "5"] = Returned "+ 3 5".
Proof.
  apply (left_identity_is_dropped "00" "1"
           (Bin "+" (Num "3") (Bin "*" (Num "1") (Num "5")))).
  - split; reflexivity.
  - split; reflexivity.
  - cbn [plain]. repeat split; reflexivity.
  - reflexivity.
Defined.

(** X4: when a run of that kind leaves an operator at the root, a second
    simplification changes nothing. *)
Theorem second_simplify_is_a_no_op (e : expr) :
  is_bin e = true -> plain e -> safe e = true -> is_bin (simp e) = true ->
  result ((AST ← build; simplify AST;; simplify AST;; toPrefix AST)
            (initial (tokens e)))
  = run (tokens e).
Proof.
  intros Hb Hp Hs Hb'.
  rewrite (run_twice e Hb Hp Hs), Hb'. symmetry. now apply run_simp.
Qed.

Lemma second_simplify_is_a_no_op_witness :
  result ((AST ← build; simplify AST;; simplify AST;; toPrefix AST)
            (initial ["+"; "0"; "+"; "3"; "5"]))
  = run ["+"; "0"; "+"; "3"; "5"].
Proof.
  apply (second_simplify_is_a_no_op (Bin "+" (Num "0") (Bin "+" (Num "3") (Num "5"))));
    [reflexivity | cbn [plain]; repeat split; reflexivity | reflexivity | reflexivity].
Defined.

(** X5: when such a run reduces the whole expression to a number, the
    second call of [simplify_binops] raises [AttributeError]. *)
Theorem second_simplify_raises_after_number (e : expr) :
  is_bin e = true -> plain e -> safe e = true -> is_bin (simp e) = false ->
  result ((AST ← build; simplify AST;; simplify AST) (initial (tokens e)))
  = Raised AttributeError.
Proof.
  intros Hb Hp Hs Hb'.
  rewrite (build_tokens e (plain_well_labelled e Hp)).
  destruct (simplify_layout e Hb Hp Hs) as (h' & Run & W & L).
  mstep (exact Run).
  destruct (simp e) as [n|]; [|discriminate]. destruct W as [_ Ha].
  now rewrite (simplify_number_raises h' [] 0 n Ha).
Qed.

Lemma second_simplify_raises_after_number_witness :
  result ((AST ← build; simplify AST;; simplify AST) (initial ["*"; "7"; "1"]))
  = Raised AttributeError.
Proof.
  apply (second_simplify_raises_after_number (Bin "*" (Num "7") (Num "1")));
    [reflexivity | cbn [plain]; repeat split; reflexivity | reflexivity | reflexivity].
Defined.

(** X6: on a token list that is a single number, construction succeeds and
    [simplify_binops] raises [AttributeError]. *)
Theorem simplify_single_number_raises (n : string) :
  Py.isnumeric n = true ->
  build (initial [n]) = Returned (0, mk_state [leaf n] [])
  /\ result ((AST ← build; simplify AST) (initial [n])) = Raised AttributeError.
Proof.
  intros Hn. split.
  - apply (build_layout (Num n) [] []). exact Hn.
  - rewrite (build_tokens (Num n) Hn). cbv beta.
    now rewrite (simplify_number_raises (layout 0 (Num n)) [] 0 n eq_refl).
Qed.

Lemma simplify_single_number_raises_witness :
  build (initial ["42"]) = Returned (0, mk_state [leaf "42"] [])
  /\ result ((AST ← build; simplify AST) (initial ["42"])) = Raised AttributeError.
Proof. apply (simplify_single_number_raises "42"). reflexivity. Defined.

(** X7: a zero as right operand of [+], over a left operand that simplifies
    to an operator whose own left operand is a number, makes the run raise
    [AttributeError]. *)
Theorem right_zero_over_operator_raises (x : expr) (z op' a : string) (xr : expr) :
  plain x -> safe x = true -> simp x = Bin op' (Num a) xr -> is_literal 0 z ->
  run ("+" :: tokens x ++ [z]) = Raised AttributeError.
Proof. apply run_right_zero_raises. Qed.

Lemma right_zero_over_operator_raises_witness :
  run ["+"; "*"; "3"; "5"; "0"] = Raised AttributeError.
Proof.
  apply (right_zero_over_operator_raises (Bin "*" (Num "3") (Num "5")) "0" "*" "3" (Num "5")).
  - cbn [plain]. repeat split; reflexivity.
  - reflexivity.
  - reflexivity.
  - split; reflexivity.
Defined.

(** X8: a one as right operand of [*], over a left operand that simplifies
    to an operator [op'] whose own left operand is the number [a]:
    simplification returns, [prefix_str] raises [AttributeError], and
    [__str__] returns two lines, [op'] and [a]. *)
Theorem right_one_over_operator_breaks_prefix_str (x : expr) (u op' a : string) (xr : expr) :
  plain x -> safe x = true -> simp x = Bin op' (Num a) xr -> is_literal 1 u ->
  run ("*" :: tokens x ++ [u]) = Raised AttributeError
  /\ result ((AST ← build; simplify AST;; str AST) (initial ("*" :: tokens x ++ [u])))
     = Returned (((op' ++ nl) ++ "    ") ++ a).
Proof.
  intros Hp Hs Hx Hu.
  destruct (run_right_one_store x u op' a xr Hp Hs Hx Hu) as (h2 & aa & Hrun & H0 & Haa).
  unfold run, run_line. unfold mbind, M_bind in *.
  destruct (build (initial ("*" :: tokens x ++ [u]))) as [[r s]| |]; try discriminate.
  destruct (simplify r s) as [[[] s']| |]; try discriminate.
  injection Hrun as -> ->. split.
  - now rewrite (toPrefix_right_False h2 [] 0 op' aa a H0 Haa).
  - now rewrite (str_right_False h2 [] 0 _ op' aa a H0 eq_refl eq_refl eq_refl Haa).
Qed.

Lemma right_one_over_operator_breaks_prefix_str_witness :
  run ["*"; "+"; "3"; "5"; "1"] = Raised AttributeError
  /\ result ((AST ← build; simplify AST;; str AST) (initial ["*"; "+"; "3"; "5"; "1"]))
     = Returned (((("+" ++ nl) ++ "    ") ++ "3")).
Proof.
  apply (right_one_over_operator_breaks_prefix_str
           (Bin "+" (Num "3") (Num "5")) "1" "+" "3" (Num "5")).
  - cbn [plain]. repeat split; reflexivity.
  - reflexivity.
  - reflexivity.
  - split; reflexivity.
Defined.

(** X9: on the same expressions as X1, the simplified tree satisfies the
    structural invariant: operators have two children, numbers none. *)
Theorem simplify_keeps_invariant_when_safe (e : expr) :
  is_bin e = true -> plain e -> safe e = true ->
  exists s,
    (AST ← build; simplify AST;; mret AST) (initial (tokens e)) = Returned (0, s)
    /\ well_shaped (heap s) 0.
Proof.
  intros Hb Hp Hs.
  rewrite (build_tokens e (plain_well_labelled e Hp)).
  destruct (simplify_layout e Hb Hp Hs) as (h' & Run & W & L).
  eexists. split; [mstep (exact Run); reflexivity|].
  cbn [heap]. eapply repr_well_shaped, within_repr. exact W.
Qed.

Lemma simplify_keeps_invariant_when_safe_witness :
  exists s,
    (AST ← build; simplify AST;; mret AST) (initial ["+"; "+"; "3"; "0"; "5"])
    = Returned (0, s)
    /\ well_shaped (heap s) 0.
Proof.
  apply (simplify_keeps_invariant_when_safe (Bin "+" (Bin "+" (Num "3") (Num "0")) (Num "5")));
    [reflexivity | cbn [plain]; repeat split; reflexivity | reflexivity].
Defined.

(** X10: [additive_identity] on a node that is the root of a tree in the
    store: it returns, the node then holds [rule "+" 0] of the expression
    (the other operand when one operand is a zero, the same expression
    otherwise), still as a tree in the same range, and no other object of
    the store is written.  The case excluded is a zero right operand under
    an operator left operand. *)
Theorem additive_identity_on_tree (lo hi : addr) (h : list Node.t)
    (toks : list string) (a : addr) (e : expr) :
  plain e -> within lo hi h a e -> slips "+" 0 e = false ->
  exists h',
    additive_identity a (mk_state h toks) = Returned (tt, mk_state h' toks)
    /\ within lo hi h' a (rule "+" 0 e)
    /\ (forall b, b <> a -> h' !! b = h !! b)
    /\ length h' = length h.
Proof. apply additive_identity_within. Qed.

Lemma additive_identity_on_tree_witness :
  exists h',
    additive_identity 0
      (mk_state (layout 0 (Bin "+" (Num "0") (Bin "*" (Num "2") (Num "3")))) [])
    = Returned (tt, mk_state h' [])
    /\ within 0 5 h' 0 (Bin "*" (Num "2") (Num "3"))
    /\ (forall b, b <> 0 ->
        h' !! b = layout 0 (Bin "+" (Num "0") (Bin "*" (Num "2") (Num "3"))) !! b)
    /\ length h' = 5.
Proof.
  apply (additive_identity_on_tree 0 5
           (layout 0 (Bin "+" (Num "0") (Bin "*" (Num "2") (Num "3")))) [] 0
           (Bin "+" (Num "0") (Bin "*" (Num "2") (Num "3")))).
  - cbn [plain]. repeat split; reflexivity.
  - apply (within_layout (Bin "+" (Num "0") (Bin "*" (Num "2") (Num "3"))) []).
  - reflexivity.
Defined.

(** X11: the same for [multiplicative_identity] and [rule "*" 1]. *)
Theorem multiplicative_identity_on_tree (lo hi : addr) (h : list Node.t)
    (toks : list string) (a : addr) (e : expr) :
  plain e -> within lo hi h a e -> slips "*" 1 e = false ->
  exists h',
    multiplicative_identity a (mk_state h toks) = Returned (tt, mk_state h' toks)
    /\ within lo hi h' a (rule "*" 1 e)
    /\ (forall b, b <> a -> h' !! b = h !! b)
    /\ length h' = length h.
Proof. apply multiplicative_identity_within. Qed.

Lemma multiplicative_identity_on_tree_witness :
  exists h',
    multiplicative_identity 0
      (mk_state (layout 0 (Bin "*" (Num "7") (Num "01"))) [])
    = Returned (tt, mk_state h' [])
    /\ within 0 3 h' 0 (Num "7")
    /\ (forall b, b <> 0 -> h' !! b = layout 0 (Bin "*" (Num "7") (Num "01")) !! b)
    /\ length h' = 3.
Proof.
  apply (multiplicative_identity_on_tree 0 3
           (layout 0 (Bin "*" (Num "7") (Num "01"))) [] 0
           (Bin "*" (Num "7") (Num "01"))).
  - cbn [plain]. repeat split; reflexivity.
  - apply (within_layout (Bin "*" (Num "7") (Num "01")) []).
  - reflexivity.
Defined.

(** X12: [mult_by_zero] on a node that is the root of a tree in the store:
    it never raises; a [*] node with a zero operand on either side becomes
    the number 0 without children, whatever the other operand is; any other
    node is left as it is; no other object is written. *)
Theorem mult_by_zero_on_tree (lo hi : addr) (h : list Node.t)
    (toks : list string) (a : addr) (e : expr) :
  plain e -> within lo hi h a e ->
  exists h',
    mult_by_zero a (mk_state h toks) = Returned (tt, mk_state h' toks)
    /\ within lo hi h' a (mbz e)
    /\ (forall b, b <> a -> h' !! b = h !! b)
    /\ length h' = length h.
Proof. apply mult_by_zero_within. Qed.

Lemma mult_by_zero_on_tree_witness :
  exists h',
    mult_by_zero 0
      (mk_state (layout 0 (Bin "*" (Bin "+" (Num "2") (Num "3")) (Num "00"))) [])
    = Returned (tt, mk_state h' [])
    /\ within 0 5 h' 0 (Num "0")
    /\ (forall b, b <> 0 ->
        h' !! b = layout 0 (Bin "*" (Bin "+" (Num "2") (Num "3")) (Num "00")) !! b)
    /\ length h' = 5.
Proof.
  apply (mult_by_zero_on_tree 0 5
           (layout 0 (Bin "*" (Bin "+" (Num "2") (Num "3")) (Num "00"))) [] 0
           (Bin "*" (Bin "+" (Num "2") (Num "3")) (Num "00"))).
  - cbn [plain]. repeat split; reflexivity.
  - apply (within_layout (Bin "*" (Bin "+" (Num "2") (Num "3")) (Num "00")) []).
Defined.

(** The tree [__str__] sees in a stored expression. *)
Lemma repr_prepr e : forall h a, repr h a e -> prepr h (VObj a) (ptree_of e).
Proof.
  induction e as [n | op l IHl r IHr]; intros h a; cbn [repr ptree_of prepr].
  - intros H. exists a, (leaf n), VFalse, VFalse.
    repeat (split; [solve [reflexivity | assumption]|]). reflexivity.
  - intros (al & ar & Ha & Hl & Hr).
    eexists a, _, (VObj al), (VObj ar).
    split; [reflexivity|]. split; [exact Ha|].
    repeat (split; [reflexivity|]). split; auto.
Qed.

Lemma pheight_ptree_of e : pheight (ptree_of e) = height e.
Proof. induction e; cbn [pheight ptree_of height]; [reflexivity | lia]. Qed.

Lemma depth_tokens_tokens e : forall d, snd <$> depth_tokens d (ptree_of e) = tokens e.
Proof.
  induction e as [n | op l IHl r IHr]; intros d; cbn [ptree_of depth_tokens tokens].
  - reflexivity.
  - rewrite fmap_cons, app_nil_r || idtac.
    cbn [fmap list_fmap snd]. rewrite fmap_app, IHl, IHr. reflexivity.
Qed.

Lemma str_lines h toks a t v l r :
  t = PNode v l r -> prepr h (VObj a) t -> pheight t <= S (length h) ->
  str a (mk_state h toks)
  = Returned (Py.join nl (line <$> depth_tokens 0 t), mk_state h toks).
Proof.
  intros -> Hp Hh. unfold str. cbn [heap].
  rewrite (BinOpAst_str_prepr (PNode v l r) (S (length h)) a 0 (mk_state h toks)
             v l r eq_refl Hp Hh).
  cbn [depth_tokens fmap list_fmap]. rewrite join_cat.
  unfold below, line at 2. cbn [fst snd Nat.mul spaces str_mul].
  rewrite map_map. reflexivity.
Qed.

(** X13: [__str__] (which [__repr__] returns too) on the tree built from a
    well-formed token list is one line per token, in the order of the token
    list, a token at depth [d] of the tree indented by [4 * d] spaces. *)
Theorem str_lists_tokens_by_depth (e : expr) :
  well_labelled e ->
  result ((AST ← build; str AST) (initial (tokens e)))
  = Returned (Py.join nl (line <$> depth_tokens 0 (ptree_of e)))
  /\ result ((AST ← build; BinOpAst_repr AST) (initial (tokens e)))
     = Returned (Py.join nl (line <$> depth_tokens 0 (ptree_of e)))
  /\ snd <$> depth_tokens 0 (ptree_of e) = tokens e.
Proof.
  intros Hwl.
  assert (H : result ((AST ← build; str AST) (initial (tokens e)))
              = Returned (Py.join nl (line <$> depth_tokens 0 (ptree_of e)))).
  { rewrite (build_tokens e Hwl). cbv beta.
    destruct e as [n | op l r].
    - now rewrite (str_lines (layout 0 (Num n)) [] 0 (ptree_of (Num n)) n PNone PNone
                     eq_refl (repr_prepr (Num n) _ 0 (repr_layout (Num n) []))
                     ltac:(cbn; lia)).
    - rewrite (str_lines (layout 0 (Bin op l r)) [] 0 (ptree_of (Bin op l r))
                 op (ptree_of l) (ptree_of r) eq_refl
                 (repr_prepr (Bin op l r) _ 0 (repr_layout (Bin op l r) []))).
      + reflexivity.
      + rewrite pheight_ptree_of, length_layout.
        pose proof (height_le_size (Bin op l r)). lia. }
  split; [exact H|]. split; [exact H|]. apply depth_tokens_tokens.
Qed.

Lemma str_lists_tokens_by_depth_witness :
  result ((AST ← build; str AST) (initial ["+"; "*"; "1"; "4"; "0"]))
  = Returned ("+" ++ nl ++ "    *" ++ nl ++ "        1" ++ nl ++ "        4"
                  ++ nl ++ "    0")
  /\ result ((AST ← build; BinOpAst_repr AST) (initial ["+"; "*"; "1"; "4"; "0"]))
     = Returned ("+" ++ nl ++ "    *" ++ nl ++ "        1" ++ nl ++ "        4"
                     ++ nl ++ "    0")
  /\ snd <$> [(0, "+"); (1, "*"); (2, "1"); (2, "4"); (1, "0")]
     = ["+"; "*"; "1"; "4"; "0"].
Proof.
  apply (str_lists_tokens_by_depth (Bin "+" (Bin "*" (Num "1") (Num "4")) (Num "0"))).
  cbn [well_labelled]. repeat split; reflexivity.
Defined.


(** X15: tokens that follow a complete expression are left in the list, and
    the objects built are those built from the expression alone. *)
Theorem build_ignores_trailing_tokens (x rest : list string) (h : list Node.t) :
  wf_prefix x ->
  exists h',
    build (mk_state h (x ++ rest)) = Returned (length h, mk_state h' rest)
    /\ build (mk_state h x) = Returned (length h, mk_state h' []).
Proof.
  intros (e & Hwl & <-)%wf_prefix_expr.
  exists (h ++ layout (length h) e)%list. split.
  - now apply build_layout.
  - rewrite <- (app_nil_r (tokens e)) at 1. now apply build_layout.
Qed.

Lemma build_ignores_trailing_tokens_witness :
  exists h',
    build (mk_state [] (["+"; "3"; "5"] ++ ["7"; "*"])) = Returned (0, mk_state h' ["7"; "*"])
    /\ build (mk_state [] ["+"; "3"; "5"]) = Returned (0, mk_state h' []).
Proof.
  apply (build_ignores_trailing_tokens ["+"; "3"; "5"] ["7"; "*"] []).
  apply wf_prefixb_spec. reflexivity.
Defined.

(** X16: [build] never raises, on any store and any token list: it returns
    the first free address, keeps every object the store had, and what it
    leaves of the token list is a suffix of what it was given. *)
Theorem build_never_fails (s : state) :
  exists s',
    build s = Returned (length (heap s), s')
    /\ heap s `prefix_of` heap s'
    /\ prefix_list s' `suffix_of` prefix_list s.
Proof.
  destruct (build_total s) as (s' & Hb & Hsuf).
  exists s'. split; [exact Hb|]. split; [|exact Hsuf].
  destruct s as [h toks]. rewrite build_parse in Hb.
  injection Hb as <-. cbn [heap]. now apply prefix_app_r.
Qed.

(** ** What the methods leave alone *)

Section Preserves.
Variable P : state -> state -> Prop.
Hypothesis P_refl : forall s, P s s.
Hypothesis P_trans : forall s1 s2 s3, P s1 s2 -> P s2 s3 -> P s1 s3.

Lemma preserves_bind {A B} (m : M A) (f : A -> M B) :
  preserves P m -> (forall x, preserves P (f x)) -> preserves P (m ≫= f).
Proof.
  intros Hm Hf s r s' H. unfold mbind, M_bind in H.
  destruct (m s) as [[x s1]| |] eqn:E; try discriminate.
  eapply P_trans; [eapply Hm; exact E | eapply Hf; exact H].
Qed.

Lemma preserves_ret {A} (x : A) : preserves P (mret x).
Proof. intros s r s' H. injection H as _ <-. apply P_refl. Qed.

Lemma preserves_throw {A} (e : exn) : preserves P (mthrow e : M A).
Proof. intros s r s' H. discriminate. Qed.

Lemma preserves_stuck {A} : preserves P (stuck : M A).
Proof. intros s r s' H. discriminate. Qed.

Lemma preserves_lift {A} (r : outcome A) : preserves P (lift r).
Proof. intros s x s' H. destruct r; try discriminate. injection H as _ <-. apply P_refl. Qed.

Lemma preserves_getattr {A} (name : Node.t -> option A) v : preserves P (getattr name v).
Proof.
  intros s r s' H. unfold getattr, mbind, M_bind, deref in H.
  destruct v as [|a]; [discriminate|].
  destruct (heap s !! a) as [o|]; [|discriminate].
  destruct (name o); [|discriminate]. injection H as _ <-. apply P_refl.
Qed.

Lemma preserves_getattr2 {A} f (g : Node.t -> option A) self : preserves P (getattr2 f g self).
Proof. apply preserves_bind; [apply preserves_getattr | intros x; apply preserves_getattr]. Qed.

Lemma preserves_numeric_and_equals f self k : preserves P (numeric_and_equals f self k).
Proof.
  apply preserves_bind; [apply preserves_getattr2|]. intros v.
  destruct (Py.isnumeric v); [|apply preserves_ret].
  apply preserves_bind; [apply preserves_getattr2|]. intros v'.
  apply preserves_bind; [apply preserves_lift | intros n; apply preserves_ret].
Qed.
End Preserves.

Ltac pres_step P_refl P_trans Hset :=
  first
    [ apply preserves_ret; exact P_refl
    | apply preserves_throw
    | apply preserves_stuck
    | apply preserves_getattr; exact P_refl
    | apply preserves_getattr2; [exact P_refl | exact P_trans]
    | apply preserves_numeric_and_equals; [exact P_refl | exact P_trans]
    | apply Hset
    | apply preserves_bind; [exact P_trans | | intros ?]
    | match goal with
      | |- preserves _ (if ?b then _ else _) => destruct b
      | |- preserves _ (match ?t with number => _ | operator => _ end) => destruct t
      | |- preserves _ (match ?c with VFalse => _ | VObj _ => _ end) => destruct c
      | |- preserves _ (call ?v _) => destruct v; cbn [call]
      end ].

Lemma eq_state_refl (s : state) : (fun s0 s1 : state => s1 = s0) s s.
Proof. reflexivity. Qed.

Lemma eq_state_trans (s1 s2 s3 : state) : s2 = s1 -> s3 = s2 -> s3 = s1.
Proof. congruence. Qed.

Lemma prefix_str_read_only fuel :
  forall self, preserves (fun s s' => s' = s) (prefix_str fuel self).
Proof.
  induction fuel as [|fuel IH]; intros self; [apply preserves_stuck|].
  rewrite prefix_str_S.
  repeat first [ apply IH | pres_step eq_state_refl eq_state_trans IH ].
Qed.

Lemma BinOpAst_str_read_only fuel :
  forall self indent, preserves (fun s s' => s' = s) (BinOpAst_str fuel self indent).
Proof.
  induction fuel as [|fuel IH]; intros self indent; [apply preserves_stuck|].
  cbn [BinOpAst_str].
  repeat first [ apply IH | pres_step eq_state_refl eq_state_trans IH ].
Qed.

Lemma only_wrote_refl self s : only_wrote self s s.
Proof. repeat split. Qed.

Lemma only_wrote_trans self s1 s2 s3 :
  only_wrote self s1 s2 -> only_wrote self s2 s3 -> only_wrote self s1 s3.
Proof.
  intros (L1 & T1 & F1) (L2 & T2 & F2). repeat split; try congruence.
  intros b Hb. now rewrite F2, F1.
Qed.

Lemma setattr_only_wrote {A} (set : A -> Node.t -> Node.t) self x :
  preserves (only_wrote self) (setattr set self x).
Proof.
  intros s r s' H. unfold setattr in H.
  destruct (heap s !! self) as [o|]; [|discriminate].
  injection H as _ <-. cbn [heap prefix_list]. repeat split.
  - apply length_insert.
  - intros b Hb. now apply list_lookup_insert_ne.
Qed.

Ltac pres_rule self :=
  repeat pres_step (only_wrote_refl self) (only_wrote_trans self)
                   (@setattr_only_wrote).

Lemma additive_identity_only_wrote self :
  preserves (only_wrote self) (additive_identity self).
Proof. unfold additive_identity. pres_rule self. Qed.

Lemma multiplicative_identity_only_wrote self :
  preserves (only_wrote self) (multiplicative_identity self).
Proof. unfold multiplicative_identity. pres_rule self. Qed.

Lemma mult_by_zero_only_wrote self :
  preserves (only_wrote self) (mult_by_zero self).
Proof. unfold mult_by_zero. pres_rule self. Qed.

Lemma same_size_refl s : same_size s s.
Proof. split; reflexivity. Qed.

Lemma same_size_trans s1 s2 s3 : same_size s1 s2 -> same_size s2 s3 -> same_size s1 s3.
Proof. intros [L1 T1] [L2 T2]. split; congruence. Qed.

Lemma only_wrote_same_size {A} self (m : M A) :
  preserves (only_wrote self) m -> preserves same_size m.
Proof. intros H s r s' E. destruct (H s r s' E) as (L & T & _). now split. Qed.

Lemma simplify_binops_same_size fuel :
  forall self, preserves same_size (simplify_binops fuel self).
Proof.
  induction fuel as [|fuel IH]; intros self; [apply preserves_stuck|].
  rewrite simplify_binops_S.
  repeat first
    [ apply IH
    | apply (only_wrote_same_size self), additive_identity_only_wrote
    | apply (only_wrote_same_size self), multiplicative_identity_only_wrote
    | pres_step same_size_refl same_size_trans IH
    | match goal with
      | |- preserves _ (if decide ?p then _ else _) => destruct (decide p)
      end ].
Qed.

(** X17: serialization reads and never writes: whenever [prefix_str] or
    [__str__] returns, on any store at all, the store and the token list
    are what they were. *)
Theorem serialization_is_read_only (a : addr) (s s' : state) (r : string) :
  toPrefix a s = Returned (r, s') \/ str a s = Returned (r, s') ->
  s' = s.
Proof.
  intros [H | H].
  - apply (prefix_str_read_only _ _ _ _ _ H).
  - apply (BinOpAst_str_read_only _ _ _ _ _ _ H).
Qed.

Lemma serialization_is_read_only_witness :
  mk_state (layout 0 (Bin "+" (Num "3") (Num "5"))) ["7"]
  = mk_state (layout 0 (Bin "+" (Num "3") (Num "5"))) ["7"].
Proof.
  apply (serialization_is_read_only 0
           (mk_state (layout 0 (Bin "+" (Num "3") (Num "5"))) ["7"])
           (mk_state (layout 0 (Bin "+" (Num "3") (Num "5"))) ["7"])
           "+ 3 5").
  left. vm_compute. reflexivity.
Defined.

(** X18: a rule writes the node it is called on and nothing else: whenever
    [additive_identity], [multiplicative_identity] or [mult_by_zero]
    returns, on any store at all, every other object is unchanged, no
    object has been allocated and the token list is what it was. *)
Theorem rules_write_only_their_node (self : addr) (s s' : state) :
  additive_identity self s = Returned (tt, s')
  \/ multiplicative_identity self s = Returned (tt, s')
  \/ mult_by_zero self s = Returned (tt, s') ->
  length (heap s') = length (heap s)
  /\ prefix_list s' = prefix_list s
  /\ forall b, b <> self -> heap s' !! b = heap s !! b.
Proof.
  intros [H | [H | H]].
  - apply (additive_identity_only_wrote self _ _ _ H).
  - apply (multiplicative_identity_only_wrote self _ _ _ H).
  - apply (mult_by_zero_only_wrote self _ _ _ H).
Qed.

Lemma rules_write_only_their_node_witness :
  length (heap (mk_state [leaf "5"; leaf "0"; leaf "5"] []))
  = length (heap (mk_state (layout 0 (Bin "+" (Num "0") (Num "5"))) []))
  /\ prefix_list (mk_state [leaf "5"; leaf "0"; leaf "5"] [])
     = prefix_list (mk_state (layout 0 (Bin "+" (Num "0") (Num "5"))) [])
  /\ forall b, b <> 0 ->
       heap (mk_state [leaf "5"; leaf "0"; leaf "5"] []) !! b
       = heap (mk_state (layout 0 (Bin "+" (Num "0") (Num "5"))) []) !! b.
Proof.
  apply (rules_write_only_their_node 0
           (mk_state (layout 0 (Bin "+" (Num "0") (Num "5"))) [])
           (mk_state [leaf "5"; leaf "0"; leaf "5"] [])).
  left. vm_compute. reflexivity.
Defined.

(** X19: [simplify_binops] allocates nothing and does not touch the token
    list: whenever it returns, on any store at all, the store has as many
    objects as before. *)
Theorem simplify_allocates_nothing (a : addr) (s s' : state) :
  simplify a s = Returned (tt, s') ->
  length (heap s') = length (heap s) /\ prefix_list s' = prefix_list s.
Proof. intros H. apply (simplify_binops_same_size _ _ _ _ _ H). Qed.

Lemma simplify_allocates_nothing_witness :
  length (heap (mk_state [leaf "5"; leaf "0"; leaf "5"] ["9"]))
  = length (heap (mk_state (layout 0 (Bin "+" (Num "0") (Num "5"))) ["9"]))
  /\ prefix_list (mk_state [leaf "5"; leaf "0"; leaf "5"] ["9"])
     = prefix_list (mk_state (layout 0 (Bin "+" (Num "0") (Num "5"))) ["9"]).
Proof.
  apply (simplify_allocates_nothing 0
           (mk_state (layout 0 (Bin "+" (Num "0") (Num "5"))) ["9"])
           (mk_state [leaf "5"; leaf "0"; leaf "5"] ["9"])).
  vm_compute. reflexivity.
Defined.
